(** * Triadic Relational Framework: a shallow embedding and its properties

    The development follows [src/src/TriadicRelationalFramework.py]:
    the class [TriadicRelationalFramework] (forward transform, analogy
    variant, inverse balance solver, chaining) and the class
    [TriadicNetwork] (named triads in a directed graph).

    Python integers are unbounded and are modelled by [Z]; [//] is floor
    division ([Z.div]); exceptions are values of [exn] carried by the
    [result] type; a [dict] that is only ever appended to and printed is an
    insertion-ordered association list; the graph's node and edge tables are
    finite maps. *)

From Stdlib Require Import ZArith Znumtheory Lia.
From stdpp Require Import gmap strings list fin_maps pretty.

Local Open Scope Z_scope.

(** ** Python values and exceptions *)

(** The arguments a caller can pass.  [bool] is a subclass of [int] in
    Python, so [True] and [False] pass [isinstance(x, int)] and denote the
    integers 1 and 0. *)
Inductive pyval : Type :=
| PyInt (z : Z)
| PyBool (b : bool)
| PyFloat (mantissa exponent : Z)
| PyStr (s : string)
| PyNone.

Inductive exn : Type :=
| ValueError (msg : string)
| ZeroDivisionError
| KeyError (key : string).

Inductive result (A : Type) : Type :=
| Ok (a : A)
| Raise (e : exn).
Arguments Ok {A} a.
Arguments Raise {A} e.

#[global] Instance result_bind : MBind result := fun A B k m =>
  match m with
  | Ok a => k a
  | Raise e => Raise e
  end.

(** The three messages of the source's [raise ValueError(...)] statements. *)
Definition msg_invalid : string := "All inputs must be positive integers.".
Definition msg_unbalanced : string :=
  "The balancing does not result in an integer C4_prime. Adjust a, b or inputs.".
Definition msg_analogy : string :=
  "The analogy does not result in an integer output. Check attribute mappings.".

(** The spec's names for the two error kinds of [compute_triad]. *)
Definition InvalidInput : exn := ValueError msg_invalid.
Definition NonIntegerResult : exn := ValueError msg_unbalanced.

(** [isinstance(x, int)] *)
Definition isinstance_int (x : pyval) : bool :=
  match x with
  | PyInt _ | PyBool _ => true
  | _ => false
  end.

(** The integer an [int] instance denotes.  It is applied to validated
    arguments only; on the other values the source never reaches the
    arithmetic. *)
Definition int_of (x : pyval) : Z :=
  match x with
  | PyInt z => z
  | PyBool b => Z.b2z b
  | _ => 0
  end.

(** [isinstance(x, int) and x > 0], with the short circuit of [and]. *)
Definition positive_int (x : pyval) : bool :=
  if isinstance_int x then 0 <? int_of x else false.

(** [a // b] on integers. *)
Definition floordiv (a b : Z) : result Z :=
  if b =? 0 then Raise ZeroDivisionError else Ok (a / b).

(** [math.gcd] of any number of integers: their non-negative gcd, 0 for none. *)
Definition math_gcd (xs : list Z) : Z := fold_left Z.gcd xs 0.

(** ** [fractions.Fraction] *)

Module Fraction.

Record t : Type := mk { numerator : Z; denominator : Z }.

(** [Fraction(n, d)] on two integers: reduce by the gcd, sign on the
    numerator. *)
Definition new (n d : Z) : result t :=
  if d =? 0 then Raise ZeroDivisionError
  else
    let g := Z.gcd n d in
    let g := if d <? 0 then - g else g in
    Ok (mk (n / g) (d / g)).

(** [f * n] for an integer [n], whose numerator is [n] and denominator 1. *)
Definition mul_int (f : t) (n : Z) : result t :=
  new (numerator f * n) (denominator f * 1).

(** [int(f)]: truncation towards zero. *)
Definition to_int (f : t) : Z :=
  if numerator f <? 0 then - ((- numerator f) / denominator f)
  else numerator f / denominator f.

(** [str(f)] *)
Definition str (f : t) : string :=
  if denominator f =? 1 then pretty (numerator f)
  else pretty (numerator f) +:+ "/" +:+ pretty (denominator f).

End Fraction.

(** ** The steps trace *)

(** A stage of the trace holds either a dictionary of named values or, for
    ["K"], a string. *)
Inductive stage : Type :=
| StageDict (entries : list (string * pyval))
| StageStr (s : string).

(** [d[k] = v] on an insertion-ordered dictionary. *)
Fixpoint dict_set {V : Type} (k : string) (v : V) (d : list (string * V))
  : list (string * V) :=
  match d with
  | [] => [(k, v)]
  | (k', v') :: d' =>
      if String.eqb k' k then (k', v) :: d' else (k', v') :: dict_set k v d'
  end.

Fixpoint dict_get {V : Type} (k : string) (d : list (string * V)) : option V :=
  match d with
  | [] => None
  | (k', v') :: d' => if String.eqb k' k then Some v' else dict_get k d'
  end.

Definition dict_keys {V : Type} (d : list (string * V)) : list string :=
  map fst d.

Definition steps_t : Type := list (string * stage).

(** ** class TriadicRelationalFramework *)

Definition compute_triad (C1 C2 C3 a b : pyval)
  : result (Z * Fraction.t * steps_t) :=
  if negb (forallb positive_int [C1; C2; C3; a; b]) then Raise (ValueError msg_invalid)
  else
    let steps : steps_t := [] in
    (* Step 1: Input Concepts *)
    let steps :=
      dict_set "inputs"
        (StageDict [("C1", C1); ("C2", C2); ("C3", C3); ("a", a); ("b", b)]) steps in
    (* Step 2: Normalization *)
    let gcd_in := math_gcd [int_of C1; int_of C2; int_of C3] in
    C1_prime ← floordiv (int_of C1) gcd_in;
    C2_prime ← floordiv (int_of C2) gcd_in;
    C3_prime ← floordiv (int_of C3) gcd_in;
    let steps :=
      dict_set "normalization"
        (StageDict [("gcd_in", PyInt gcd_in); ("C1_prime", PyInt C1_prime);
                    ("C2_prime", PyInt C2_prime); ("C3_prime", PyInt C3_prime)]) steps in
    (* Step 3: Relational Transformation (Phi) *)
    let numerator := int_of a * C2_prime * C3_prime in
    let denominator := int_of b * C1_prime in
    C4_prime ← Fraction.new numerator denominator;
    let steps :=
      dict_set "transformation"
        (StageDict [("C4_prime", PyStr (Fraction.str C4_prime))]) steps in
    (* Step 4: Denormalization *)
    C4 ← Fraction.mul_int C4_prime gcd_in;
    if negb (Fraction.denominator C4 =? 1) then Raise (ValueError msg_unbalanced)
    else
      let C4 := Fraction.to_int C4 in
      let steps := dict_set "denormalization" (StageDict [("C4", PyInt C4)]) steps in
      (* Simplicity K *)
      K ← Fraction.new 1 (int_of a * int_of b);
      let steps := dict_set "K" (StageStr (Fraction.str K)) steps in
      Ok (C4, K, steps).

Definition analogy_variant (C1 C2 C3 : pyval)
  : result (Z * Fraction.t * steps_t) :=
  if negb (forallb positive_int [C1; C2; C3]) then Raise (ValueError msg_invalid)
  else
    let steps : steps_t := [] in
    (* Normalization (over inputs) *)
    let gcd_in := math_gcd [int_of C1; int_of C2; int_of C3] in
    C1_prime ← floordiv (int_of C1) gcd_in;
    C2_prime ← floordiv (int_of C2) gcd_in;
    C3_prime ← floordiv (int_of C3) gcd_in;
    let steps :=
      dict_set "normalization"
        (StageDict [("gcd_in", PyInt gcd_in); ("C1_prime", PyInt C1_prime);
                    ("C2_prime", PyInt C2_prime); ("C3_prime", PyInt C3_prime)]) steps in
    (* Analogy transformation: C4_prime = (C1_prime * C3_prime) / C2_prime *)
    let numerator := C1_prime * C3_prime in
    C4_prime ← Fraction.new numerator C2_prime;
    let steps :=
      dict_set "transformation"
        (StageDict [("C4_prime", PyStr (Fraction.str C4_prime))]) steps in
    (* Denormalization *)
    C4 ← Fraction.mul_int C4_prime gcd_in;
    if negb (Fraction.denominator C4 =? 1) then Raise (ValueError msg_analogy)
    else
      let C4 := Fraction.to_int C4 in
      let steps := dict_set "denormalization" (StageDict [("C4", PyInt C4)]) steps in
      (* For analogy, a=1, b=1 implicitly *)
      K ← Fraction.new 1 1;
      let steps := dict_set "K" (StageStr (Fraction.str K)) steps in
      Ok (C4, K, steps).

Definition check_static_balance (C1 C2 C3 C4 : pyval)
  : result (Z * Z * Fraction.t * steps_t) :=
  if negb (forallb positive_int [C1; C2; C3; C4]) then Raise (ValueError msg_invalid)
  else
    let steps : steps_t :=
      [("inputs", StageDict [("C1", C1); ("C2", C2); ("C3", C3); ("C4", C4)])] in
    let gcd_in := math_gcd [int_of C1; int_of C2; int_of C3; int_of C4] in
    C1_prime ← floordiv (int_of C1) gcd_in;
    C2_prime ← floordiv (int_of C2) gcd_in;
    C3_prime ← floordiv (int_of C3) gcd_in;
    C4_prime ← floordiv (int_of C4) gcd_in;
    let steps :=
      dict_set "normalization"
        (StageDict [("gcd_in", PyInt gcd_in); ("C1_prime", PyInt C1_prime);
                    ("C2_prime", PyInt C2_prime); ("C3_prime", PyInt C3_prime);
                    ("C4_prime", PyInt C4_prime)]) steps in
    ratio ← Fraction.new (C1_prime * C4_prime) (C2_prime * C3_prime);
    let a := Fraction.numerator ratio in
    let b := Fraction.denominator ratio in
    let gcd_ab := math_gcd [a; b] in
    a ← floordiv a gcd_ab;
    b ← floordiv b gcd_ab;
    let steps := dict_set "balancing" (StageDict [("a", PyInt a); ("b", PyInt b)]) steps in
    K ← Fraction.new 1 (a * b);
    let steps := dict_set "K" (StageStr (Fraction.str K)) steps in
    Ok (a, b, K, steps).

(** One triad of a chain: the tuple [(C2, C3, a, b)]. *)
Definition triad : Type := pyval * pyval * pyval * pyval.

(** The [for] loop of [chain_triads], with its three mutable variables. *)
Fixpoint chain_loop (current_C1 : pyval) (all_K : list Fraction.t)
    (all_steps : list steps_t) (triad_list : list triad)
  : result (pyval * list Fraction.t * list steps_t) :=
  match triad_list with
  | [] => Ok (current_C1, all_K, all_steps)
  | (C2, C3, a, b) :: rest =>
      '(C4, K, steps) ← compute_triad current_C1 C2 C3 a b;
      let all_K := all_K ++ [K] in
      let all_steps := all_steps ++ [steps] in
      let current_C1 := PyInt C4 in (* Chain *)
      chain_loop current_C1 all_K all_steps rest
  end.

Definition chain_triads (initial_C1 : pyval) (triad_list : list triad)
  : result (pyval * list Fraction.t * list steps_t) :=
  chain_loop initial_C1 [] [] triad_list.

(** ** networkx.DiGraph, as far as [TriadicNetwork] uses it

    networkx is a dependency of the source.  Its documented behaviour is
    kept: [add_node] creates the node or updates the attributes of an
    existing one; [add_edge] creates missing endpoints without attributes
    and creates the edge or updates the attributes of an existing one (a
    [DiGraph] holds at most one edge per ordered pair). *)

Module DiGraph.

Record t : Type := mk {
  nodes : gmap string (gmap string Fraction.t);
  edges : gmap (string * string) (gmap string Fraction.t)
}.

Definition empty : t := mk ∅ ∅.

(** [n in G] *)
Definition has_node (g : t) (n : string) : bool :=
  bool_decide (is_Some (nodes g !! n)).

(** [G.add_node(n, **attr)] *)
Definition add_node (n : string) (attr : gmap string Fraction.t) (g : t) : t :=
  mk (<[n := attr ∪ default ∅ (nodes g !! n)]> (nodes g)) (edges g).

(** [G.add_edge(u, v, **attr)] *)
Definition add_edge (u v : string) (attr : gmap string Fraction.t) (g : t) : t :=
  let g := if has_node g u then g else add_node u ∅ g in
  let g := if has_node g v then g else add_node v ∅ g in
  mk (nodes g) (<[(u, v) := attr ∪ default ∅ (edges g !! (u, v))]> (edges g)).

(** [G.nodes[n][key]] *)
Definition node_attr (g : t) (n key : string) : result Fraction.t :=
  match nodes g !! n with
  | None => Raise (KeyError n)
  | Some attr =>
      match attr !! key with
      | None => Raise (KeyError key)
      | Some v => Ok v
      end
  end.

End DiGraph.

(** ** class TriadicNetwork *)

Record TriadicNetwork : Type := { graph : DiGraph.t }.

(** [TriadicNetwork()] *)
Definition TriadicNetwork_init : TriadicNetwork := {| graph := DiGraph.empty |}.

Definition add_triad (self : TriadicNetwork) (triad_id : string)
    (C1 C2 C3 a b : pyval) : result TriadicNetwork :=
  '(_, K, _) ← compute_triad C1 C2 C3 a b;
  Ok {| graph := DiGraph.add_node triad_id {["K" := K]} (graph self) |}.

Definition add_connection (self : TriadicNetwork) (from_id to_id : string)
  : result TriadicNetwork :=
  if DiGraph.has_node (graph self) from_id && DiGraph.has_node (graph self) to_id then
    w ← DiGraph.node_attr (graph self) from_id "K"; (* Weight = K of from *)
    Ok {| graph := DiGraph.add_edge from_id to_id {["weight" := w]} (graph self) |}
  else Ok self.

(** The networks a program can build: from the empty one by successful
    calls of the two methods. *)
Inductive reachable : TriadicNetwork -> Prop :=
| reachable_init : reachable TriadicNetwork_init
| reachable_add_triad net net' triad_id C1 C2 C3 a b :
    reachable net ->
    add_triad net triad_id C1 C2 C3 a b = Ok net' ->
    reachable net'
| reachable_add_connection net net' from_id to_id :
    reachable net ->
    add_connection net from_id to_id = Ok net' ->
    reachable net'.

(** ** Definitions that follow the words of the specification *)


(** The chain as the specification words it: each step's output is the next
    step's first input; the results of the steps are collected in order; the
    first error is the result. *)
Fixpoint chain_spec (C1 : pyval) (triad_list : list triad)
  : result (pyval * list Fraction.t * list steps_t) :=
  match triad_list with
  | [] => Ok (C1, [], [])
  | (C2, C3, a, b) :: rest =>
      match compute_triad C1 C2 C3 a b with
      | Raise e => Raise e
      | Ok (C4, K, steps) =>
          match chain_spec (PyInt C4) rest with
          | Raise e => Raise e
          | Ok (final_C4, all_K, all_steps) =>
              Ok (final_C4, K :: all_K, steps :: all_steps)
          end
      end
  end.

(** The integer a call returns, or the error it raises, without [K] and
    the trace. *)
Definition outcome (r : result (Z * Fraction.t * steps_t)) : result Z :=
  match r with
  | Ok (C4, _, _) => Ok C4
  | Raise e => Raise e
  end.

(** A positive integer: an instance of [int] whose value is above 0. *)
Definition positive_integer (x : pyval) : Prop :=
  isinstance_int x = true /\ 0 < int_of x.

(** Every node of a network carries a K. *)
Definition nodes_have_K (net : TriadicNetwork) : Prop :=
  forall (n : string) (attr : gmap string Fraction.t),
    DiGraph.nodes (graph net) !! n = Some attr -> is_Some (attr !! "K").

(** The network of the source's example: two triads, not yet connected. *)
Definition example_net : TriadicNetwork :=
  {| graph :=
       DiGraph.add_node "Delta2" {["K" := Fraction.mk 1 1]}
         (DiGraph.add_node "Delta1" {["K" := Fraction.mk 1 12]} DiGraph.empty) |}.

(** A fraction 1/d with d positive, the shape of every K. *)
Definition unit_fraction (f : Fraction.t) : Prop :=
  Fraction.numerator f = 1 /\ 0 < Fraction.denominator f.

(** The shape the class's methods keep: a node holds a K and nothing else, an
    edge joins two nodes and holds a weight and nothing else. *)
Definition well_formed (net : TriadicNetwork) : Prop :=
  (forall (n : string) (attr : gmap string Fraction.t),
      DiGraph.nodes (graph net) !! n = Some attr ->
      exists k, attr = {["K" := k]} /\ unit_fraction k) /\
  (forall (u v : string) (eattr : gmap string Fraction.t),
      DiGraph.edges (graph net) !! (u, v) = Some eattr ->
      is_Some (DiGraph.nodes (graph net) !! u) /\
      is_Some (DiGraph.nodes (graph net) !! v) /\
      exists w, eattr = {["weight" := w]} /\ unit_fraction w).

(** * Properties *)

(** ** Integer arithmetic *)

Section Arithmetic.

Lemma gcd_pos_r (n d : Z) : 0 < d -> 0 < Z.gcd n d.
Proof.
  intros Hd. pose proof (Z.gcd_nonneg n d) as Hn.
  destruct (Z.eq_dec (Z.gcd n d) 0) as [E|E]; [|lia].
  apply Z.gcd_eq_0_r in E. lia.
Qed.

Lemma gcd_pos_l (n d : Z) : 0 < n -> 0 < Z.gcd n d.
Proof. rewrite Z.gcd_comm. apply gcd_pos_r. Qed.

Lemma div_gcd_l (n d : Z) : 0 < Z.gcd n d -> n = Z.gcd n d * (n / Z.gcd n d).
Proof.
  intros Hg. apply Z.div_exact; [lia|].
  apply Z.mod_divide; [lia|]. apply Z.gcd_divide_l.
Qed.

Lemma div_gcd_r (n d : Z) : 0 < Z.gcd n d -> d = Z.gcd n d * (d / Z.gcd n d).
Proof.
  intros Hg. apply Z.div_exact; [lia|].
  apply Z.mod_divide; [lia|]. apply Z.gcd_divide_r.
Qed.

Lemma div_gcd_pos_r (n d : Z) : 0 < d -> 0 < d / Z.gcd n d.
Proof.
  intros Hd. pose proof (gcd_pos_r n d Hd) as Hg.
  pose proof (div_gcd_r n d Hg) as E. nia.
Qed.

(** A fraction in lowest terms has denominator 1 exactly when the
    denominator it was built from divides the numerator. *)
Lemma reduced_den_one (n d : Z) : 0 < d -> d / Z.gcd n d = 1 <-> (d | n).
Proof.
  intros Hd. pose proof (gcd_pos_r n d Hd) as Hg. split.
  - intros E. pose proof (div_gcd_r n d Hg) as Ed. rewrite E in Ed.
    rewrite Z.mul_1_r in Ed. rewrite Ed at 1. apply Z.gcd_divide_l.
  - intros Hdiv. rewrite Z.gcd_comm.
    assert (Z.gcd d n = d) as -> by (apply Z.divide_gcd_iff; [lia|assumption]).
    apply Z.div_same. lia.
Qed.

Lemma reduced_num_exact (n d : Z) : 0 < d -> (d | n) -> n / Z.gcd n d = n / d.
Proof.
  intros Hd Hdiv. rewrite Z.gcd_comm.
  assert (Z.gcd d n = d) as -> by (apply Z.divide_gcd_iff; [lia|assumption]).
  reflexivity.
Qed.

(** Two pairs that denote the same rational have the same lowest terms. *)
Lemma reduced_unique (n1 d1 n2 d2 : Z) :
  0 < d1 -> 0 < d2 -> n1 * d2 = n2 * d1 ->
  n1 / Z.gcd n1 d1 = n2 / Z.gcd n2 d2 /\ d1 / Z.gcd n1 d1 = d2 / Z.gcd n2 d2.
Proof.
  intros H1 H2 E.
  pose proof (gcd_pos_r n1 d1 H1) as G1. pose proof (gcd_pos_r n2 d2 H2) as G2.
  pose proof (div_gcd_l n1 d1 G1) as En1. pose proof (div_gcd_r n1 d1 G1) as Ed1.
  pose proof (div_gcd_l n2 d2 G2) as En2. pose proof (div_gcd_r n2 d2 G2) as Ed2.
  pose proof (div_gcd_pos_r n1 d1 H1) as Q1. pose proof (div_gcd_pos_r n2 d2 H2) as Q2.
  assert (Z.gcd (n1 / Z.gcd n1 d1) (d1 / Z.gcd n1 d1) = 1) as C1
    by (apply Z.gcd_div_gcd; [lia|reflexivity]).
  assert (Z.gcd (n2 / Z.gcd n2 d2) (d2 / Z.gcd n2 d2) = 1) as C2
    by (apply Z.gcd_div_gcd; [lia|reflexivity]).
  set (g1 := Z.gcd n1 d1) in *. set (g2 := Z.gcd n2 d2) in *.
  set (p1 := n1 / g1) in *. set (q1 := d1 / g1) in *.
  set (p2 := n2 / g2) in *. set (q2 := d2 / g2) in *.
  assert (p1 * q2 = p2 * q1) as X.
  { apply (Z.mul_cancel_l _ _ (g1 * g2)); [nia|].
    rewrite En1, Ed2, En2, Ed1 in E. lia. }
  assert (q1 = q2) as Eq.
  { apply Z.divide_antisym_nonneg; [lia|lia| |].
    - apply (Z.gauss _ p1); [|rewrite Z.gcd_comm; exact C1].
      exists p2. lia.
    - apply (Z.gauss _ p2); [|rewrite Z.gcd_comm; exact C2].
      exists p1. lia. }
  split; [|exact Eq].
  rewrite Eq in X. apply (Z.mul_cancel_r _ _ q2); [lia|exact X].
Qed.

End Arithmetic.

Section TriadArithmetic.

(** The gcd of three numbers divides each of them. *)
Lemma gcd3_split (c1 c2 c3 : Z) :
  0 < c1 ->
  let g := Z.gcd (Z.gcd c1 c2) c3 in
  0 < g /\ c1 = g * (c1 / g) /\ c2 = g * (c2 / g) /\ c3 = g * (c3 / g).
Proof.
  intros H1 g.
  assert (0 < g) as Hg by (apply gcd_pos_l, gcd_pos_l, H1).
  assert ((g | c1) /\ (g | c2) /\ (g | c3)) as (D1 & D2 & D3).
  { pose proof (Z.gcd_divide_l (Z.gcd c1 c2) c3) as Dl.
    pose proof (Z.gcd_divide_r (Z.gcd c1 c2) c3) as Dr.
    pose proof (Z.gcd_divide_l c1 c2) as D1. pose proof (Z.gcd_divide_r c1 c2) as D2.
    fold g in Dl, Dr. split; [|split]; [| |exact Dr].
    - exact (Z.divide_trans _ _ _ Dl D1).
    - exact (Z.divide_trans _ _ _ Dl D2). }
  split; [exact Hg|].
  repeat split; apply Z.div_exact; try lia; apply Z.mod_divide; (lia || assumption).
Qed.

(** Multiplying a reduced fraction by [g] and reducing again: the result
    has denominator 1 exactly when [den] divides [g * num], and its
    numerator is then the exact quotient. *)
Lemma scale_reduced (num den g : Z) :
  0 < den -> 0 < g ->
  let h := Z.gcd num den in
  let p := num / h * g in
  let q := den / h * 1 in
  (q / Z.gcd p q = 1 <-> (den | g * num)) /\
  ((den | g * num) -> p / Z.gcd p q = g * num / den).
Proof.
  intros Hden Hg h p q.
  assert (0 < h) as Hh by (apply gcd_pos_r, Hden).
  pose proof (div_gcd_l num den Hh) as En. pose proof (div_gcd_r num den Hh) as Ed.
  pose proof (div_gcd_pos_r num den Hden) as Hq'.
  fold h in En, Ed, Hq'.
  assert (0 < q) as Hq by (unfold q; lia).
  assert ((q | p) <-> (den | g * num)) as Hdiv.
  { unfold p, q. rewrite Z.mul_1_r.
    rewrite <- (Z.mul_divide_cancel_l (den / h) (num / h * g) h) by lia.
    replace (h * (den / h)) with den by lia.
    replace (h * (num / h * g)) with (g * num) by nia. reflexivity. }
  split.
  - rewrite reduced_den_one by exact Hq. exact Hdiv.
  - intros D. rewrite reduced_num_exact by (try apply Hdiv; assumption).
    unfold p, q. rewrite Z.mul_1_r.
    rewrite <- (Z.div_mul_cancel_l (num / h * g) (den / h) h) by lia.
    replace (h * (den / h)) with den by lia.
    replace (h * (num / h * g)) with (g * num) by nia. reflexivity.
Qed.

(** Normalization and denormalization cancel. *)
Lemma normalization_cancels (c1 c2 c3 a b : Z) :
  0 < c1 -> 0 < c2 -> 0 < c3 -> 0 < a -> 0 < b ->
  let g := Z.gcd (Z.gcd c1 c2) c3 in
  let num := g * (a * (c2 / g) * (c3 / g)) in
  let den := b * (c1 / g) in
  0 < den /\
  ((den | num) <-> (b * c1 | a * c2 * c3)) /\
  num / den = a * c2 * c3 / (b * c1).
Proof.
  intros H1 H2 H3 Ha Hb g num den.
  destruct (gcd3_split c1 c2 c3 H1) as (Hg & E1 & E2 & E3). fold g in Hg, E1, E2, E3.
  assert (0 < c1 / g) as P1 by nia.
  assert (b * c1 = g * den) as Eden by (unfold den; lia).
  assert (a * c2 * c3 = g * num) as Enum.
  { unfold num. rewrite E2 at 1. rewrite E3 at 1. ring. }
  split; [unfold den; nia|]. split.
  - rewrite Eden, Enum. symmetry. apply Z.mul_divide_cancel_l. lia.
  - rewrite Eden, Enum. symmetry. apply Z.div_mul_cancel_l; unfold den; nia.
Qed.

End TriadArithmetic.

(** ** The building blocks on the inputs the validation lets through *)

Lemma positive_int_spec (x : pyval) :
  positive_int x = true <-> isinstance_int x = true /\ 0 < int_of x.
Proof.
  unfold positive_int. destruct (isinstance_int x).
  - rewrite Z.ltb_lt. tauto.
  - split; [discriminate|]. intros [E _]. discriminate.
Qed.

Lemma positive_int_PyInt (z : Z) : positive_int (PyInt z) = true <-> 0 < z.
Proof. unfold positive_int. simpl. apply Z.ltb_lt. Qed.

Lemma floordiv_ok (a b : Z) : b <> 0 -> floordiv a b = Ok (a / b).
Proof. intros H. unfold floordiv. apply Z.eqb_neq in H. rewrite H. reflexivity. Qed.

Lemma math_gcd_3 (c1 c2 c3 : Z) : math_gcd [c1; c2; c3] = Z.gcd (Z.gcd c1 c2) c3.
Proof. unfold math_gcd. simpl. rewrite Z.gcd_0_l, Z.gcd_abs_l. reflexivity. Qed.

Lemma math_gcd_4 (c1 c2 c3 c4 : Z) :
  math_gcd [c1; c2; c3; c4] = Z.gcd (Z.gcd (Z.gcd c1 c2) c3) c4.
Proof. unfold math_gcd. simpl. rewrite Z.gcd_0_l, Z.gcd_abs_l. reflexivity. Qed.

Lemma math_gcd_2 (a b : Z) : math_gcd [a; b] = Z.gcd a b.
Proof. unfold math_gcd. simpl. rewrite Z.gcd_0_l, Z.gcd_abs_l. reflexivity. Qed.

Lemma Fraction_new_pos (n d : Z) :
  0 < d -> Fraction.new n d = Ok (Fraction.mk (n / Z.gcd n d) (d / Z.gcd n d)).
Proof.
  intros H. unfold Fraction.new.
  destruct (Z.eqb_spec d 0) as [E|_]; [lia|].
  destruct (Z.ltb_spec d 0) as [E|_]; [lia|]. reflexivity.
Qed.

Lemma Fraction_new_unit (d : Z) : 0 < d -> Fraction.new 1 d = Ok (Fraction.mk 1 d).
Proof.
  intros H. rewrite Fraction_new_pos by exact H.
  rewrite Z.gcd_1_l, !Z.div_1_r. reflexivity.
Qed.

Lemma forallb_positive_int (xs : list pyval) :
  forallb positive_int xs = true <->
  Forall (fun x => isinstance_int x = true /\ 0 < int_of x) xs.
Proof.
  induction xs as [|x xs IH]; simpl.
  - split; [constructor|reflexivity].
  - rewrite andb_true_iff, IH, positive_int_spec. split.
    + intros [H1 H2]. constructor; assumption.
    + intros H. inversion H; subst. split; assumption.
Qed.

(** What [compute_triad] does once its arguments are validated: no
    division by zero can occur, so only the integrality test decides. *)
Lemma compute_triad_valid (C1 C2 C3 a b : pyval) :
  forallb positive_int [C1; C2; C3; a; b] = true ->
  let g := Z.gcd (Z.gcd (int_of C1) (int_of C2)) (int_of C3) in
  let num := int_of a * (int_of C2 / g) * (int_of C3 / g) in
  let den := int_of b * (int_of C1 / g) in
  let C4_prime := Fraction.mk (num / Z.gcd num den) (den / Z.gcd num den) in
  let p := Fraction.numerator C4_prime * g in
  let q := Fraction.denominator C4_prime * 1 in
  let C4 := Fraction.mk (p / Z.gcd p q) (q / Z.gcd p q) in
  let K := Fraction.mk 1 (int_of a * int_of b) in
  0 < g /\ 0 < den /\ 0 < q /\
  compute_triad C1 C2 C3 a b =
    if negb (Fraction.denominator C4 =? 1) then Raise NonIntegerResult
    else Ok (Fraction.to_int C4, K,
             [("inputs", StageDict [("C1", C1); ("C2", C2); ("C3", C3); ("a", a); ("b", b)]);
              ("normalization",
               StageDict [("gcd_in", PyInt g); ("C1_prime", PyInt (int_of C1 / g));
                          ("C2_prime", PyInt (int_of C2 / g));
                          ("C3_prime", PyInt (int_of C3 / g))]);
              ("transformation", StageDict [("C4_prime", PyStr (Fraction.str C4_prime))]);
              ("denormalization", StageDict [("C4", PyInt (Fraction.to_int C4))]);
              ("K", StageStr (Fraction.str K))]).
Proof.
  intros Hv g num den C4_prime p q C4 K.
  pose proof Hv as Hall. simpl in Hall. rewrite !andb_true_iff in Hall.
  destruct Hall as (V1 & V2 & V3 & Va & Vb & _).
  apply positive_int_spec in V1, V2, V3, Va, Vb.
  destruct V1 as [_ P1], V2 as [_ P2], V3 as [_ P3], Va as [_ Pa], Vb as [_ Pb].
  pose proof (gcd3_split (int_of C1) (int_of C2) (int_of C3) P1) as Hsplit.
  cbv zeta in Hsplit. fold g in Hsplit. destruct Hsplit as (Hg & E1 & E2 & E3).
  assert (0 < den) as Hden by (unfold den; nia).
  assert (0 < q) as Hq.
  { unfold q, C4_prime. simpl. pose proof (div_gcd_pos_r num den Hden). lia. }
  split; [exact Hg|]. split; [exact Hden|]. split; [exact Hq|].
  unfold compute_triad. rewrite Hv. simpl negb. cbv iota.
  rewrite math_gcd_3. fold g.
  rewrite !floordiv_ok by lia. unfold mbind, result_bind.
  fold num den. rewrite (Fraction_new_pos num den Hden). fold C4_prime.
  unfold Fraction.mul_int. fold p q. rewrite (Fraction_new_pos p q Hq). fold C4.
  change (Fraction.denominator C4) with (q / Z.gcd p q).
  destruct (q / Z.gcd p q =? 1); simpl negb; cbv iota; [|reflexivity].
  rewrite Fraction_new_unit by nia. reflexivity.
Qed.

(** On positive integers [compute_triad] returns the exact quotient of the
    denormalized fraction when the denominator divides the numerator, and
    raises the unbalanced error otherwise. *)
Lemma compute_triad_cases (c1 c2 c3 a b : Z) :
  0 < c1 -> 0 < c2 -> 0 < c3 -> 0 < a -> 0 < b ->
  let g := Z.gcd (Z.gcd c1 c2) c3 in
  let num := g * (a * (c2 / g) * (c3 / g)) in
  let den := b * (c1 / g) in
  ((den | num) /\
   exists steps,
     compute_triad (PyInt c1) (PyInt c2) (PyInt c3) (PyInt a) (PyInt b)
     = Ok (num / den, Fraction.mk 1 (a * b), steps)) \/
  (~ (den | num) /\
   compute_triad (PyInt c1) (PyInt c2) (PyInt c3) (PyInt a) (PyInt b)
   = Raise NonIntegerResult).
Proof.
  intros H1 H2 H3 Ha Hb g num den.
  assert (forallb positive_int [PyInt c1; PyInt c2; PyInt c3; PyInt a; PyInt b] = true)
    as Hv.
  { simpl. rewrite !andb_true_iff, !positive_int_PyInt. tauto. }
  pose proof (compute_triad_valid _ _ _ _ _ Hv) as Hc.
  cbv zeta in Hc. simpl int_of in Hc. fold g in Hc.
  destruct Hc as (Hg & Hden & Hq & Hc). fold den in Hden.
  destruct (gcd3_split c1 c2 c3 H1) as (_ & E1 & E2 & E3). fold g in E1, E2, E3.
  pose proof (scale_reduced (a * (c2 / g) * (c3 / g)) den g Hden Hg) as [Hone Hval].
  fold num in Hone, Hval.
  cbn [Fraction.numerator Fraction.denominator] in Hc. fold den in Hc.
  rewrite Hc. clear Hc.
  match goal with |- context [negb (?d =? 1)] => destruct (Z.eqb_spec d 1) as [E|E] end.
  - left. apply Hone in E as Hdiv. split; [exact Hdiv|].
    simpl negb. cbv iota. eexists.
    unfold Fraction.to_int. cbn [Fraction.numerator Fraction.denominator].
    rewrite E, (Hval Hdiv), !Z.div_1_r.
    assert (0 < c2 / g) as Q2 by nia. assert (0 < c3 / g) as Q3 by nia.
    assert (0 <= num) as Hnum by (unfold num; repeat apply Z.mul_nonneg_nonneg; lia).
    assert (0 <= num / den) as Hnn by (apply Z.div_pos; assumption).
    destruct (Z.ltb_spec (num / den) 0) as [L|_]; [lia|]. reflexivity.
  - right. split; [|reflexivity]. intros Hdiv. apply E, Hone, Hdiv.
Qed.

(** ** The forward transform *)





(** The first example of the source, with its whole trace. *)
Lemma scenario_A_value :
  compute_triad (PyInt 18) (PyInt 6) (PyInt 8) (PyInt 3) (PyInt 4)
  = Ok (2, Fraction.mk 1 12,
        [("inputs", StageDict [("C1", PyInt 18); ("C2", PyInt 6); ("C3", PyInt 8);
                               ("a", PyInt 3); ("b", PyInt 4)]);
         ("normalization", StageDict [("gcd_in", PyInt 2); ("C1_prime", PyInt 9);
                                      ("C2_prime", PyInt 3); ("C3_prime", PyInt 4)]);
         ("transformation", StageDict [("C4_prime", PyStr "1")]);
         ("denormalization", StageDict [("C4", PyInt 2)]);
         ("K", StageStr "1/12")]).
Proof. vm_compute. reflexivity. Qed.

(** C3, as the code has it: [compute_triad(18, 6, 8, 3, 4)] succeeds and
    returns C4 = 2 (not 6) and K = 1/12. *)
Theorem compute_triad_scenario_A :
  exists steps,
    compute_triad (PyInt 18) (PyInt 6) (PyInt 8) (PyInt 3) (PyInt 4)
    = Ok (2, Fraction.mk 1 12, steps).
Proof. eexists. exact scenario_A_value. Qed.

(** C3 as stated fails: the call does not return C4 = 6 with K = 1/12. *)
Lemma compute_triad_scenario_A_not_6 :
  ~ (exists steps,
       compute_triad (PyInt 18) (PyInt 6) (PyInt 8) (PyInt 3) (PyInt 4)
       = Ok (6, Fraction.mk 1 12, steps)).
Proof. intros [steps E]. vm_compute in E. discriminate E. Qed.

(** ** Case analysis of a call *)

(** Split a hypothesis about the result of a sequence of binds and tests
    into the cases of each step. *)
Ltac split_call H :=
  unfold mbind, result_bind in H;
  repeat match type of H with
         | context [match ?m with Ok _ => _ | Raise _ => _ end] =>
             let E := fresh "E" in destruct m eqn:E; try discriminate H
         | context [if ?c then _ else _] =>
             let E := fresh "T" in destruct c eqn:E; try discriminate H
         end.

Lemma floordiv_raise (a b : Z) (e : exn) :
  floordiv a b = Raise e -> e = ZeroDivisionError.
Proof. unfold floordiv. destruct (b =? 0); congruence. Qed.

Lemma Fraction_new_raise (n d : Z) (e : exn) :
  Fraction.new n d = Raise e -> e = ZeroDivisionError.
Proof. unfold Fraction.new. destruct (d =? 0); congruence. Qed.

Lemma Fraction_mul_int_raise (f : Fraction.t) (n : Z) (e : exn) :
  Fraction.mul_int f n = Raise e -> e = ZeroDivisionError.
Proof. apply Fraction_new_raise. Qed.

(** ** The analogy variant *)

(** C7: whenever [analogy_variant] succeeds, the K it returns is the
    rational 1/1, whatever the inputs. *)
Theorem analogy_variant_K (C1 C2 C3 : pyval) (C4 : Z) (K : Fraction.t)
    (steps : steps_t) :
  analogy_variant C1 C2 C3 = Ok (C4, K, steps) -> K = Fraction.mk 1 1.
Proof.
  intros H. unfold analogy_variant in H. split_call H.
  inversion H; subst. vm_compute in E4. congruence.
Qed.

Lemma analogy_variant_K_witness :
  exists steps K,
    analogy_variant (PyInt 21) (PyInt 3) (PyInt 5) = Ok (35, K, steps) /\
    K = Fraction.mk 1 1.
Proof.
  eexists. eexists. split.
  - vm_compute. reflexivity.
  - apply (analogy_variant_K (PyInt 21) (PyInt 3) (PyInt 5) 35 _
             [("normalization", StageDict [("gcd_in", PyInt 1); ("C1_prime", PyInt 21);
                                           ("C2_prime", PyInt 3); ("C3_prime", PyInt 5)]);
              ("transformation", StageDict [("C4_prime", PyStr "35")]);
              ("denormalization", StageDict [("C4", PyInt 35)]);
              ("K", StageStr "1")]).
    vm_compute. reflexivity.
Defined.

(** ** Chaining *)

Lemma chain_loop_spec (triad_list : list triad) :
  forall (C1 : pyval) (all_K : list Fraction.t) (all_steps : list steps_t),
    chain_loop C1 all_K all_steps triad_list =
    match chain_spec C1 triad_list with
    | Raise e => Raise e
    | Ok (final_C4, Ks, Ss) => Ok (final_C4, all_K ++ Ks, all_steps ++ Ss)
    end.
Proof.
  induction triad_list as [|[[[C2 C3] a] b] rest IH]; intros C1 all_K all_steps.
  - simpl. rewrite !app_nil_r. reflexivity.
  - simpl. unfold mbind, result_bind.
    destruct (compute_triad C1 C2 C3 a b) as [[[C4 K] steps]|e]; [|reflexivity].
    rewrite IH.
    destruct (chain_spec (PyInt C4) rest) as [[[final_C4 Ks] Ss]|e]; [|reflexivity].
    rewrite <- !app_assoc. reflexivity.
Qed.

Lemma chain_triads_chain_spec (C1 : pyval) (triad_list : list triad) :
  chain_triads C1 triad_list = chain_spec C1 triad_list.
Proof.
  unfold chain_triads. rewrite chain_loop_spec.
  destruct (chain_spec C1 triad_list) as [[[final_C4 Ks] Ss]|e]; reflexivity.
Qed.

(** A step that raises ends the chain with its error, whatever follows. *)
Lemma chain_spec_abort (pre : list triad) :
  forall (C1 C1' : pyval) (Ks : list Fraction.t) (Ss : list steps_t)
         (C2 C3 a b : pyval) (post : list triad) (e : exn),
    chain_spec C1 pre = Ok (C1', Ks, Ss) ->
    compute_triad C1' C2 C3 a b = Raise e ->
    chain_spec C1 (pre ++ (C2, C3, a, b) :: post) = Raise e.
Proof.
  induction pre as [|[[[D2 D3] c] d] pre IH]; intros C1 C1' Ks Ss C2 C3 a b post e Hpre Hstep.
  - simpl in Hpre. inversion Hpre; subst. simpl. rewrite Hstep. reflexivity.
  - simpl in Hpre. simpl.
    destruct (compute_triad C1 D2 D3 c d) as [[[C4 K] steps]|e0]; [|discriminate].
    destruct (chain_spec (PyInt C4) pre) as [[[f Ks0] Ss0]|e0] eqn:Epre; [|discriminate].
    inversion Hpre; subst.
    rewrite (IH (PyInt C4) C1' Ks0 Ss0 C2 C3 a b post e Epre Hstep). reflexivity.
Qed.

(** C4: [chain_triads] is the chain of the specification: it invokes
    [compute_triad] step by step, each output C4 being the next C1, and
    returns the final C4 with the K and the trace of every step in order;
    and when a step raises after a successful prefix, the chain raises that
    same error whatever steps follow, so the remaining steps are not
    executed and no result is returned. *)
Theorem chain_triads_spec (initial_C1 : pyval) (triad_list : list triad) :
  chain_triads initial_C1 triad_list = chain_spec initial_C1 triad_list /\
  (forall (pre post : list triad) (C2 C3 a b C1' : pyval)
          (Ks : list Fraction.t) (Ss : list steps_t) (e : exn),
      triad_list = pre ++ (C2, C3, a, b) :: post ->
      chain_triads initial_C1 pre = Ok (C1', Ks, Ss) ->
      compute_triad C1' C2 C3 a b = Raise e ->
      chain_triads initial_C1 triad_list = Raise e).
Proof.
  split; [apply chain_triads_chain_spec|].
  intros pre post C2 C3 a b C1' Ks Ss e -> Hpre Hstep.
  rewrite chain_triads_chain_spec in *.
  exact (chain_spec_abort pre _ _ _ _ _ _ _ _ post e Hpre Hstep).
Qed.

Lemma chain_triads_spec_witness :
  chain_triads (PyInt 18)
    [(PyInt 6, PyInt 8, PyInt 3, PyInt 4); (PyInt 1, PyInt 1, PyInt 7, PyInt 44);
     (PyInt 5, PyInt 10, PyInt 1, PyInt 1)]
  = Raise NonIntegerResult.
Proof.
  destruct (chain_triads_spec (PyInt 18)
    [(PyInt 6, PyInt 8, PyInt 3, PyInt 4); (PyInt 1, PyInt 1, PyInt 7, PyInt 44);
     (PyInt 5, PyInt 10, PyInt 1, PyInt 1)]) as [_ Habort].
  eapply (Habort [(PyInt 6, PyInt 8, PyInt 3, PyInt 4)]
                 [(PyInt 5, PyInt 10, PyInt 1, PyInt 1)]).
  - reflexivity.
  - vm_compute. reflexivity.
  - vm_compute. reflexivity.
Defined.

(** C10: [chain_triads] validates nothing itself: with an empty triad list
    it returns the initial C1 unchanged, with no K and no trace, for every
    value of the initial C1, be it zero, negative or not an integer; an
    initial C1 that is not a positive integer is only rejected by the
    [compute_triad] call of a first step. *)
Theorem chain_triads_empty (initial_C1 : pyval) :
  chain_triads initial_C1 [] = Ok (initial_C1, [], []) /\
  (forall (C2 C3 a b : pyval) (rest : list triad),
      positive_int initial_C1 = false ->
      chain_triads initial_C1 ((C2, C3, a, b) :: rest) = Raise InvalidInput).
Proof.
  split; [reflexivity|].
  intros C2 C3 a b rest Hneg.
  unfold chain_triads, chain_loop, compute_triad. simpl forallb.
  rewrite Hneg. reflexivity.
Qed.

Lemma chain_triads_empty_witness :
  chain_triads (PyFloat 3 (-1)) [] = Ok (PyFloat 3 (-1), [], []) /\
  chain_triads (PyInt 0) [] = Ok (PyInt 0, [], []) /\
  chain_triads (PyInt (-5)) [(PyInt 6, PyInt 8, PyInt 3, PyInt 4)] = Raise InvalidInput.
Proof.
  split; [apply (chain_triads_empty (PyFloat 3 (-1)))|].
  split; [apply (chain_triads_empty (PyInt 0))|].
  apply (chain_triads_empty (PyInt (-5))). reflexivity.
Defined.

(** ** Validation *)

Lemma not_all_positive (xs : list pyval) :
  ~ Forall positive_integer xs <-> forallb positive_int xs = false.
Proof.
  pose proof (forallb_positive_int xs) as H. unfold positive_integer.
  destruct (forallb positive_int xs).
  - split; [|discriminate]. intros N. exfalso. apply N, H. reflexivity.
  - split; [reflexivity|]. intros _ F. apply H in F. discriminate.
Qed.

(** A hypothesis [Raise e = Raise InvalidInput] where [e] comes from a
    division or from the integrality test is absurd. *)
Ltac not_invalid H :=
  match goal with
  | E : floordiv _ _ = Raise _ |- _ =>
      apply floordiv_raise in E; subst; discriminate H
  | E : Fraction.new _ _ = Raise _ |- _ =>
      apply Fraction_new_raise in E; subst; discriminate H
  | E : Fraction.mul_int _ _ = Raise _ |- _ =>
      apply Fraction_mul_int_raise in E; subst; discriminate H
  | _ => discriminate H
  end.

Lemma compute_triad_invalid (C1 C2 C3 a b : pyval) :
  compute_triad C1 C2 C3 a b = Raise InvalidInput <->
  forallb positive_int [C1; C2; C3; a; b] = false.
Proof.
  split.
  - intros H. destruct (forallb positive_int [C1; C2; C3; a; b]) eqn:Hv; [|reflexivity].
    exfalso. unfold compute_triad in H. rewrite Hv in H. simpl negb in H. cbv iota in H.
    unfold InvalidInput in H. split_call H; not_invalid H.
  - intros Hv. unfold compute_triad. rewrite Hv. reflexivity.
Qed.

Lemma analogy_variant_invalid (C1 C2 C3 : pyval) :
  analogy_variant C1 C2 C3 = Raise InvalidInput <->
  forallb positive_int [C1; C2; C3] = false.
Proof.
  split.
  - intros H. destruct (forallb positive_int [C1; C2; C3]) eqn:Hv; [|reflexivity].
    exfalso. unfold analogy_variant in H. rewrite Hv in H. simpl negb in H. cbv iota in H.
    unfold InvalidInput in H. split_call H; not_invalid H.
  - intros Hv. unfold analogy_variant. rewrite Hv. reflexivity.
Qed.

Lemma check_static_balance_invalid (C1 C2 C3 C4 : pyval) :
  check_static_balance C1 C2 C3 C4 = Raise InvalidInput <->
  forallb positive_int [C1; C2; C3; C4] = false.
Proof.
  split.
  - intros H. destruct (forallb positive_int [C1; C2; C3; C4]) eqn:Hv; [|reflexivity].
    exfalso. unfold check_static_balance in H. rewrite Hv in H.
    simpl negb in H. cbv iota in H.
    unfold InvalidInput in H. split_call H; not_invalid H.
  - intros Hv. unfold check_static_balance. rewrite Hv. reflexivity.
Qed.

(** C5: each of [compute_triad], [analogy_variant] and
    [check_static_balance] raises [InvalidInput] if and only if at least one
    of its arguments is not a positive integer.  The test is the first thing
    each function does, so no division is attempted on such arguments, and
    the raised value carries no trace. *)
Theorem invalid_input_iff (C1 C2 C3 C4 a b : pyval) :
  (compute_triad C1 C2 C3 a b = Raise InvalidInput <->
   ~ Forall positive_integer [C1; C2; C3; a; b]) /\
  (analogy_variant C1 C2 C3 = Raise InvalidInput <->
   ~ Forall positive_integer [C1; C2; C3]) /\
  (check_static_balance C1 C2 C3 C4 = Raise InvalidInput <->
   ~ Forall positive_integer [C1; C2; C3; C4]).
Proof.
  rewrite !not_all_positive.
  split; [apply compute_triad_invalid|].
  split; [apply analogy_variant_invalid|apply check_static_balance_invalid].
Qed.

(** Invalid arguments are rejected before the gcd and the divisions: all
    zeros would otherwise divide by a zero gcd. *)
Example compute_triad_zeros :
  compute_triad (PyInt 0) (PyInt 0) (PyInt 0) (PyInt 1) (PyInt 1) = Raise InvalidInput.
Proof. reflexivity. Qed.

(** ** The steps trace *)




(** ** The inverse balance solver *)

Lemma gcd4_split (c1 c2 c3 c4 : Z) :
  0 < c1 ->
  let g := Z.gcd (Z.gcd (Z.gcd c1 c2) c3) c4 in
  0 < g /\ c1 = g * (c1 / g) /\ c2 = g * (c2 / g) /\ c3 = g * (c3 / g) /\
  c4 = g * (c4 / g).
Proof.
  intros H1 g.
  assert (0 < g) as Hg by (apply gcd_pos_l, gcd_pos_l, gcd_pos_l, H1).
  pose proof (Z.gcd_divide_l (Z.gcd (Z.gcd c1 c2) c3) c4) as Dl. fold g in Dl.
  pose proof (Z.gcd_divide_r (Z.gcd (Z.gcd c1 c2) c3) c4) as D4. fold g in D4.
  pose proof (Z.gcd_divide_l (Z.gcd c1 c2) c3) as Dl3.
  pose proof (Z.gcd_divide_r (Z.gcd c1 c2) c3) as D3.
  pose proof (Z.gcd_divide_l c1 c2) as D1. pose proof (Z.gcd_divide_r c1 c2) as D2.
  assert ((g | c3)) as G3 by exact (Z.divide_trans _ _ _ Dl D3).
  assert ((g | Z.gcd c1 c2)) as G12 by exact (Z.divide_trans _ _ _ Dl Dl3).
  assert ((g | c1)) as G1 by exact (Z.divide_trans _ _ _ G12 D1).
  assert ((g | c2)) as G2 by exact (Z.divide_trans _ _ _ G12 D2).
  split; [exact Hg|].
  repeat split; apply Z.div_exact; try lia; apply Z.mod_divide; (lia || assumption).
Qed.

(** What [check_static_balance] returns on positive integers: the ratio
    C1'·C4' / (C2'·C3') in lowest terms. *)
Lemma check_static_balance_valid (c1 c2 c3 c4 : Z) :
  0 < c1 -> 0 < c2 -> 0 < c3 -> 0 < c4 ->
  let g := Z.gcd (Z.gcd (Z.gcd c1 c2) c3) c4 in
  let n := c1 / g * (c4 / g) in
  let d := c2 / g * (c3 / g) in
  let a := n / Z.gcd n d in
  let b := d / Z.gcd n d in
  0 < n /\ 0 < d /\ Z.gcd a b = 1 /\
  exists steps,
    check_static_balance (PyInt c1) (PyInt c2) (PyInt c3) (PyInt c4)
    = Ok (a, b, Fraction.mk 1 (a * b), steps).
Proof.
  intros H1 H2 H3 H4 g n d a b.
  destruct (gcd4_split c1 c2 c3 c4 H1) as (Hg & E1 & E2 & E3 & E4).
  fold g in Hg, E1, E2, E3, E4.
  assert (0 < c1 / g) as Q1 by nia. assert (0 < c2 / g) as Q2 by nia.
  assert (0 < c3 / g) as Q3 by nia. assert (0 < c4 / g) as Q4 by nia.
  assert (0 < n) as Hn by (unfold n; nia).
  assert (0 < d) as Hd by (unfold d; nia).
  assert (0 < Z.gcd n d) as Hh by (apply gcd_pos_r, Hd).
  assert (Z.gcd a b = 1) as Hco by (apply Z.gcd_div_gcd; [lia|reflexivity]).
  assert (0 < a) as Pa by (pose proof (div_gcd_l n d Hh); fold a in H; nia).
  assert (0 < b) as Pb by (apply div_gcd_pos_r, Hd).
  split; [exact Hn|]. split; [exact Hd|]. split; [exact Hco|].
  unfold check_static_balance.
  assert (forallb positive_int [PyInt c1; PyInt c2; PyInt c3; PyInt c4] = true) as ->.
  { simpl. rewrite !andb_true_iff, !positive_int_PyInt. tauto. }
  simpl negb. cbv iota. simpl int_of. rewrite math_gcd_4. fold g.
  rewrite !floordiv_ok by lia. unfold mbind, result_bind.
  fold n d. rewrite (Fraction_new_pos n d Hd).
  cbn [Fraction.numerator Fraction.denominator]. fold a b.
  rewrite math_gcd_2, Hco. rewrite !floordiv_ok by lia. rewrite !Z.div_1_r.
  rewrite Fraction_new_unit by nia. eexists. reflexivity.
Qed.

(** C2: round trip.  When [compute_triad] succeeds on positive integers C1,
    C2, C3, a, b with output C4, [check_static_balance] on C1, C2, C3, C4
    returns a co-prime pair (a', b') that is a/b in lowest terms, and
    K' = 1/(a'·b'). *)
Theorem round_trip (c1 c2 c3 a b C4 : Z) (K : Fraction.t) (steps : steps_t) :
  0 < c1 -> 0 < c2 -> 0 < c3 -> 0 < a -> 0 < b ->
  compute_triad (PyInt c1) (PyInt c2) (PyInt c3) (PyInt a) (PyInt b)
  = Ok (C4, K, steps) ->
  exists (a' b' : Z) (steps' : steps_t),
    check_static_balance (PyInt c1) (PyInt c2) (PyInt c3) (PyInt C4)
    = Ok (a', b', Fraction.mk 1 (a' * b'), steps') /\
    Z.gcd a' b' = 1 /\
    a' = a / Z.gcd a b /\ b' = b / Z.gcd a b /\
    a' * b = a * b'.
Proof.
  intros H1 H2 H3 Ha Hb Hc.
  destruct (normalization_cancels c1 c2 c3 a b H1 H2 H3 Ha Hb) as (Hden & Hdiv & Hval).
  destruct (compute_triad_cases c1 c2 c3 a b H1 H2 H3 Ha Hb) as [[D [s E]]|[D E]];
    rewrite E in Hc; [|discriminate Hc].
  inversion Hc; subst C4. clear Hc E. rewrite Hval.
  apply Hdiv in D. destruct D as [k Hk].
  assert (b * c1 <> 0) as Hnz by nia.
  assert (a * c2 * c3 / (b * c1) = k) as Ek by (rewrite Hk; apply Z.div_mul; exact Hnz).
  rewrite Ek.
  assert (0 < k) as Pk by nia.
  destruct (check_static_balance_valid c1 c2 c3 k H1 H2 H3 Pk) as (Hn & Hd & Hco & s' & E).
  destruct (gcd4_split c1 c2 c3 k H1) as (Hg & E1 & E2 & E3 & E4).
  set (g := Z.gcd (Z.gcd (Z.gcd c1 c2) c3) k) in *.
  set (n := c1 / g * (k / g)) in *. set (d := c2 / g * (c3 / g)) in *.
  assert (n * b = a * d) as Hcross.
  { apply (Z.mul_cancel_l _ _ (g * g)); [nia|]. unfold n, d.
    transitivity (b * (g * (c1 / g)) * (g * (k / g))); [ring|].
    transitivity (a * (g * (c2 / g)) * (g * (c3 / g))); [|ring].
    rewrite <- E1, <- E2, <- E3, <- E4. lia. }
  destruct (reduced_unique n d a b Hd Hb Hcross) as [Enum Eden].
  exists (n / Z.gcd n d), (d / Z.gcd n d), s'.
  split; [exact E|]. split; [exact Hco|]. split; [exact Enum|]. split; [exact Eden|].
  rewrite Enum, Eden.
  assert (0 < Z.gcd a b) as Hgab by (apply gcd_pos_r, Hb).
  pose proof (div_gcd_l a b Hgab) as Xa. pose proof (div_gcd_r a b Hgab) as Xb.
  set (ga := Z.gcd a b) in *. set (a1 := a / ga) in *. set (b1 := b / ga) in *.
  replace (a1 * b) with (a1 * (ga * b1)) by (f_equal; symmetry; exact Xb).
  replace (a * b1) with (ga * a1 * b1) by (f_equal; symmetry; exact Xa).
  ring.
Qed.

Lemma round_trip_witness :
  exists (a' b' : Z) (steps' : steps_t),
    check_static_balance (PyInt 18) (PyInt 6) (PyInt 8) (PyInt 2)
    = Ok (a', b', Fraction.mk 1 (a' * b'), steps') /\
    Z.gcd a' b' = 1 /\
    a' = 9 / Z.gcd 9 12 /\ b' = 12 / Z.gcd 9 12 /\
    a' * 12 = 9 * b'.
Proof.
  apply (round_trip 18 6 8 9 12 2 (Fraction.mk 1 108)
           [("inputs", StageDict [("C1", PyInt 18); ("C2", PyInt 6); ("C3", PyInt 8);
                                  ("a", PyInt 9); ("b", PyInt 12)]);
            ("normalization", StageDict [("gcd_in", PyInt 2); ("C1_prime", PyInt 9);
                                         ("C2_prime", PyInt 3); ("C3_prime", PyInt 4)]);
            ("transformation", StageDict [("C4_prime", PyStr "1")]);
            ("denormalization", StageDict [("C4", PyInt 2)]);
            ("K", StageStr "1/108")]); try lia.
  vm_compute. reflexivity.
Defined.

(** ** The network *)

Lemma has_node_true (g : DiGraph.t) (n : string) :
  DiGraph.has_node g n = true <-> is_Some (DiGraph.nodes g !! n).
Proof. unfold DiGraph.has_node. apply bool_decide_eq_true. Qed.

(** [add_edge] between two existing nodes leaves the nodes as they are. *)
Lemma add_edge_nodes (g : DiGraph.t) (u v : string) (attr : gmap string Fraction.t) :
  DiGraph.has_node g u = true -> DiGraph.has_node g v = true ->
  DiGraph.nodes (DiGraph.add_edge u v attr g) = DiGraph.nodes g.
Proof. intros Hu Hv. unfold DiGraph.add_edge. rewrite Hu, Hv. reflexivity. Qed.

Lemma add_edge_edges (g : DiGraph.t) (u v : string) (attr : gmap string Fraction.t) :
  DiGraph.has_node g u = true -> DiGraph.has_node g v = true ->
  DiGraph.edges (DiGraph.add_edge u v attr g)
  = <[(u, v) := attr ∪ default ∅ (DiGraph.edges g !! (u, v))]> (DiGraph.edges g).
Proof. intros Hu Hv. unfold DiGraph.add_edge. rewrite Hu, Hv. reflexivity. Qed.

Lemma reachable_nodes_have_K (net : TriadicNetwork) :
  reachable net -> nodes_have_K net.
Proof.
  induction 1 as [|net net' triad_id C1 C2 C3 a b Hr IH Hadd
                  |net net' from_id to_id Hr IH Hadd]; intros n attr Hn.
  - simpl in Hn. rewrite lookup_empty in Hn. discriminate Hn.
  - unfold add_triad, mbind, result_bind in Hadd.
    destruct (compute_triad C1 C2 C3 a b) as [[[C4 K] steps]|e]; [|discriminate Hadd].
    inversion Hadd; subst net'. clear Hadd. simpl in Hn.
    destruct (decide (triad_id = n)) as [->|Hne].
    + rewrite lookup_insert_eq in Hn. inversion Hn; subst attr.
      exists K. apply lookup_union_Some_l, lookup_singleton_eq.
    + rewrite lookup_insert_ne in Hn by exact Hne. exact (IH n attr Hn).
  - unfold add_connection in Hadd.
    destruct (DiGraph.has_node (graph net) from_id) eqn:Hf;
      [destruct (DiGraph.has_node (graph net) to_id) eqn:Ht|]; simpl in Hadd.
    + unfold mbind, result_bind in Hadd.
      destruct (DiGraph.node_attr (graph net) from_id "K") as [w|e]; [|discriminate Hadd].
      inversion Hadd; subst net'. cbn [graph] in Hn.
      rewrite add_edge_nodes in Hn by assumption. exact (IH n attr Hn).
    + inversion Hadd; subst net'. exact (IH n attr Hn).
    + inversion Hadd; subst net'. exact (IH n attr Hn).
Qed.

(** C8: [add_connection] with two existing endpoints, on a network built by
    the class's methods, returns the network with the edge from [from_id]
    to [to_id] whose weight is the K stored on [from_id], the nodes and the
    other edges being unchanged; with a missing endpoint, on any network,
    it raises nothing and returns the network unchanged, so no edge and no
    node is created. *)
Theorem add_connection_spec (net : TriadicNetwork) (from_id to_id : string) :
  (reachable net ->
   DiGraph.has_node (graph net) from_id = true ->
   DiGraph.has_node (graph net) to_id = true ->
   exists (attr : gmap string Fraction.t) (k : Fraction.t) (net' : TriadicNetwork)
          (eattr : gmap string Fraction.t),
     DiGraph.nodes (graph net) !! from_id = Some attr /\
     attr !! "K" = Some k /\
     add_connection net from_id to_id = Ok net' /\
     DiGraph.edges (graph net') !! (from_id, to_id) = Some eattr /\
     eattr !! "weight" = Some k /\
     DiGraph.nodes (graph net') = DiGraph.nodes (graph net) /\
     (forall e : string * string,
         e <> (from_id, to_id) ->
         DiGraph.edges (graph net') !! e = DiGraph.edges (graph net) !! e)) /\
  (DiGraph.has_node (graph net) from_id = false \/
   DiGraph.has_node (graph net) to_id = false ->
   add_connection net from_id to_id = Ok net).
Proof.
  split.
  - intros Hr Hf Ht. pose proof (reachable_nodes_have_K net Hr) as HK.
    pose proof Hf as Hf'. apply has_node_true in Hf' as [attr Hattr].
    destruct (HK from_id attr Hattr) as [k Hk].
    exists attr, k. eexists. eexists.
    split; [exact Hattr|]. split; [exact Hk|].
    unfold add_connection. rewrite Hf, Ht. simpl.
    unfold DiGraph.node_attr. rewrite Hattr, Hk. unfold mbind, result_bind.
    split; [reflexivity|]. simpl graph.
    rewrite add_edge_edges, add_edge_nodes by assumption.
    split; [apply lookup_insert_eq|].
    split; [apply lookup_union_Some_l, lookup_singleton_eq|].
    split; [reflexivity|].
    intros e Hne. apply lookup_insert_ne. congruence.
  - intros Hmiss. unfold add_connection.
    destruct Hmiss as [Hf|Ht]; [rewrite Hf; reflexivity|].
    rewrite Ht, andb_false_r. reflexivity.
Qed.

Lemma example_net_reachable : reachable example_net.
Proof.
  eapply (reachable_add_triad _ _ "Delta2" (PyInt 2) (PyInt 5) (PyInt 10) (PyInt 1) (PyInt 1)).
  - eapply (reachable_add_triad _ _ "Delta1" (PyInt 18) (PyInt 6) (PyInt 8) (PyInt 3) (PyInt 4)).
    + exact reachable_init.
    + unfold add_triad. rewrite scenario_A_value. reflexivity.
  - reflexivity.
Qed.

Lemma add_connection_spec_witness :
  (exists (attr : gmap string Fraction.t) (k : Fraction.t) (net' : TriadicNetwork)
          (eattr : gmap string Fraction.t),
     DiGraph.nodes (graph example_net) !! "Delta1" = Some attr /\
     attr !! "K" = Some k /\
     add_connection example_net "Delta1" "Delta2" = Ok net' /\
     DiGraph.edges (graph net') !! ("Delta1", "Delta2") = Some eattr /\
     eattr !! "weight" = Some k /\
     DiGraph.nodes (graph net') = DiGraph.nodes (graph example_net) /\
     (forall e : string * string,
         e <> ("Delta1", "Delta2") ->
         DiGraph.edges (graph net') !! e = DiGraph.edges (graph example_net) !! e)) /\
  add_connection example_net "Delta1" "Delta3" = Ok example_net.
Proof.
  destruct (add_connection_spec example_net "Delta1" "Delta2") as [Hadd _].
  destruct (add_connection_spec example_net "Delta1" "Delta3") as [_ Hnop].
  split.
  - apply Hadd; [exact example_net_reachable|vm_compute; reflexivity..].
  - apply Hnop. right. vm_compute. reflexivity.
Defined.

(** The source's network example: the edge from Delta1 to Delta2 weighs
    1/12, the K of Delta1. *)
Example example_connection :
  exists net',
    add_connection example_net "Delta1" "Delta2" = Ok net' /\
    DiGraph.edges (graph net') !! ("Delta1", "Delta2")
    = Some {["weight" := Fraction.mk 1 12]}.
Proof. eexists. split; [vm_compute; reflexivity|]. vm_compute. reflexivity. Qed.

(** * Further properties of the code *)

(** ** The forward transform on any validated arguments *)

Lemma forallb_positive_5 (C1 C2 C3 a b : pyval) :
  forallb positive_int [C1; C2; C3; a; b] = true ->
  0 < int_of C1 /\ 0 < int_of C2 /\ 0 < int_of C3 /\ 0 < int_of a /\ 0 < int_of b.
Proof.
  intros Hv. simpl in Hv. rewrite !andb_true_iff in Hv.
  destruct Hv as (V1 & V2 & V3 & Va & Vb & _).
  apply positive_int_spec in V1, V2, V3, Va, Vb. tauto.
Qed.

(** Validated arguments, integers or booleans: the call returns the exact
    quotient a·C2·C3 / (b·C1) when b·C1 divides a·C2·C3, and raises the
    unbalanced error when it does not. *)
Lemma compute_triad_general (C1 C2 C3 a b : pyval) :
  forallb positive_int [C1; C2; C3; a; b] = true ->
  let n := int_of a * int_of C2 * int_of C3 in
  let d := int_of b * int_of C1 in
  ((d | n) /\
   exists steps,
     compute_triad C1 C2 C3 a b = Ok (n / d, Fraction.mk 1 (int_of a * int_of b), steps)) \/
  (~ (d | n) /\ compute_triad C1 C2 C3 a b = Raise NonIntegerResult).
Proof.
  intros Hv n d.
  destruct (forallb_positive_5 _ _ _ _ _ Hv) as (H1 & H2 & H3 & Ha & Hb).
  pose proof (compute_triad_valid _ _ _ _ _ Hv) as Hc. cbv zeta in Hc.
  destruct (normalization_cancels _ _ _ _ _ H1 H2 H3 Ha Hb) as (Hden & Hdiv & Hval).
  fold n d in Hdiv, Hval.
  set (c1 := int_of C1) in *. set (c2 := int_of C2) in *. set (c3 := int_of C3) in *.
  set (x := int_of a) in *. set (y := int_of b) in *.
  set (g := Z.gcd (Z.gcd c1 c2) c3) in *.
  set (num := g * (x * (c2 / g) * (c3 / g))) in *. set (den := y * (c1 / g)) in *.
  destruct Hc as (Hg & _ & Hq & Hc).
  destruct (gcd3_split c1 c2 c3 H1) as (_ & E1 & E2 & E3). fold g in E1, E2, E3.
  pose proof (scale_reduced (x * (c2 / g) * (c3 / g)) den g Hden Hg) as [Hone Hval'].
  fold num in Hone, Hval'.
  cbn [Fraction.numerator Fraction.denominator] in Hc.
  rewrite Hc. clear Hc.
  match goal with |- context [negb (?t =? 1)] => destruct (Z.eqb_spec t 1) as [E|E] end.
  - left. apply Hone in E as Hd. split; [apply Hdiv, Hd|].
    simpl negb. cbv iota. eexists.
    unfold Fraction.to_int. cbn [Fraction.numerator Fraction.denominator].
    rewrite E, (Hval' Hd), !Z.div_1_r, Hval.
    assert (0 <= n / d) as Hnn by (apply Z.div_pos; unfold n, d; nia).
    destruct (Z.ltb_spec (n / d) 0) as [L|_]; [lia|]. reflexivity.
  - right. split; [|reflexivity]. intros Hd. apply E, Hone, Hdiv, Hd.
Qed.

(** A successful call was given validated arguments. *)
Lemma compute_triad_ok_valid (C1 C2 C3 a b : pyval) (r : Z * Fraction.t * steps_t) :
  compute_triad C1 C2 C3 a b = Ok r ->
  forallb positive_int [C1; C2; C3; a; b] = true.
Proof.
  intros H. destruct (forallb positive_int [C1; C2; C3; a; b]) eqn:Hv; [reflexivity|].
  unfold compute_triad in H. rewrite Hv in H. discriminate H.
Qed.

(** What a successful call returned. *)
Lemma compute_triad_ok_inv (C1 C2 C3 a b : pyval) (C4 : Z) (K : Fraction.t)
    (steps : steps_t) :
  compute_triad C1 C2 C3 a b = Ok (C4, K, steps) ->
  forallb positive_int [C1; C2; C3; a; b] = true /\
  0 < C4 /\
  C4 * (int_of b * int_of C1) = int_of a * int_of C2 * int_of C3 /\
  K = Fraction.mk 1 (int_of a * int_of b).
Proof.
  intros H. pose proof (compute_triad_ok_valid _ _ _ _ _ _ H) as Hv.
  destruct (forallb_positive_5 _ _ _ _ _ Hv) as (H1 & H2 & H3 & Ha & Hb).
  split; [exact Hv|].
  destruct (compute_triad_general _ _ _ _ _ Hv) as [[[k Hk] [s E]]|[_ E]];
    rewrite E in H; [|discriminate H].
  inversion H; subst. clear H E.
  assert (int_of b * int_of C1 <> 0) as Hnz by nia.
  rewrite Hk, Z.div_mul by exact Hnz.
  split; [nia|]. split; reflexivity.
Qed.

(** ** The analogy variant on validated arguments *)



(** ** The inverse balance solver on validated arguments *)

Lemma forallb_positive_4 (C1 C2 C3 C4 : pyval) :
  forallb positive_int [C1; C2; C3; C4] = true ->
  0 < int_of C1 /\ 0 < int_of C2 /\ 0 < int_of C3 /\ 0 < int_of C4.
Proof.
  intros Hv. simpl in Hv. rewrite !andb_true_iff in Hv.
  destruct Hv as (V1 & V2 & V3 & V4 & _).
  apply positive_int_spec in V1, V2, V3, V4. tauto.
Qed.

(** Validated arguments: the call succeeds, and returns positive co-prime
    coefficients that balance the four concepts. *)
Lemma check_static_balance_general (C1 C2 C3 C4 : pyval) :
  forallb positive_int [C1; C2; C3; C4] = true ->
  exists (a b : Z) (steps : steps_t),
    check_static_balance C1 C2 C3 C4 = Ok (a, b, Fraction.mk 1 (a * b), steps) /\
    0 < a /\ 0 < b /\ Z.gcd a b = 1 /\
    a * (int_of C2 * int_of C3) = b * (int_of C1 * int_of C4).
Proof.
  intros Hv. destruct (forallb_positive_4 _ _ _ _ Hv) as (H1 & H2 & H3 & H4).
  unfold check_static_balance. rewrite Hv. simpl negb. cbv iota.
  rewrite math_gcd_4.
  set (c1 := int_of C1) in *. set (c2 := int_of C2) in *.
  set (c3 := int_of C3) in *. set (c4 := int_of C4) in *.
  destruct (gcd4_split c1 c2 c3 c4 H1) as (Hg & E1 & E2 & E3 & E4).
  set (g := Z.gcd (Z.gcd (Z.gcd c1 c2) c3) c4) in *.
  assert (0 < c1 / g) as Q1 by nia. assert (0 < c2 / g) as Q2 by nia.
  assert (0 < c3 / g) as Q3 by nia. assert (0 < c4 / g) as Q4 by nia.
  set (n := c1 / g * (c4 / g)). set (d := c2 / g * (c3 / g)).
  assert (0 < n) as Hn by (unfold n; nia).
  assert (0 < d) as Hd by (unfold d; nia).
  assert (0 < Z.gcd n d) as Hh by (apply gcd_pos_r, Hd).
  pose proof (div_gcd_l n d Hh) as Xn. pose proof (div_gcd_r n d Hh) as Xd.
  assert (Z.gcd (n / Z.gcd n d) (d / Z.gcd n d) = 1) as Hco
    by (apply Z.gcd_div_gcd; [lia|reflexivity]).
  set (h := Z.gcd n d) in *. set (a := n / h) in *. set (b := d / h) in *.
  assert (0 < a) as Pa by nia. assert (0 < b) as Pb by nia.
  rewrite !floordiv_ok by lia. unfold mbind, result_bind.
  fold n d. rewrite (Fraction_new_pos n d Hd). fold h a b.
  cbn [Fraction.numerator Fraction.denominator].
  rewrite math_gcd_2, Hco. rewrite !floordiv_ok by lia. rewrite !Z.div_1_r.
  rewrite Fraction_new_unit by nia.
  exists a, b. eexists. split; [reflexivity|].
  split; [exact Pa|]. split; [exact Pb|]. split; [exact Hco|].
  assert (a * d = b * n) as Hcross by (rewrite Xn, Xd; ring).
  transitivity (g * g * (a * d)); [unfold d; rewrite E2 at 1; rewrite E3 at 1; ring|].
  rewrite Hcross. unfold n. rewrite E1 at 2. rewrite E4 at 2. ring.
Qed.

(** ** Results and errors of the three transforms *)

(** X1: a successful [compute_triad] was given five positive integers; the
    C4 it returns is a positive integer with C4·b·C1 = a·C2·C3, and K is
    1/(a·b) whatever C1, C2, C3 are, a unit fraction with denominator at
    least 1. *)
Theorem compute_triad_result (C1 C2 C3 a b : pyval) (C4 : Z) (K : Fraction.t)
    (steps : steps_t) :
  compute_triad C1 C2 C3 a b = Ok (C4, K, steps) ->
  Forall positive_integer [C1; C2; C3; a; b] /\
  0 < C4 /\
  C4 * (int_of b * int_of C1) = int_of a * int_of C2 * int_of C3 /\
  K = Fraction.mk 1 (int_of a * int_of b) /\
  1 <= Fraction.denominator K.
Proof.
  intros H. destruct (compute_triad_ok_inv _ _ _ _ _ _ _ _ H) as (Hv & Hpos & Hrel & HK).
  destruct (forallb_positive_5 _ _ _ _ _ Hv) as (H1 & H2 & H3 & Ha & Hb).
  split; [apply forallb_positive_int, Hv|].
  split; [exact Hpos|]. split; [exact Hrel|]. split; [exact HK|].
  subst K. simpl. nia.
Qed.

Lemma compute_triad_result_witness :
  Forall positive_integer [PyBool true; PyInt 6; PyInt 8; PyInt 3; PyInt 4] /\
  0 < 36 /\
  36 * (4 * 1) = 3 * 6 * 8 /\
  Fraction.mk 1 12 = Fraction.mk 1 (3 * 4) /\
  1 <= 12.
Proof.
  apply (compute_triad_result (PyBool true) (PyInt 6) (PyInt 8) (PyInt 3) (PyInt 4) 36
           (Fraction.mk 1 12)
           [("inputs", StageDict [("C1", PyBool true); ("C2", PyInt 6); ("C3", PyInt 8);
                                  ("a", PyInt 3); ("b", PyInt 4)]);
            ("normalization", StageDict [("gcd_in", PyInt 1); ("C1_prime", PyInt 1);
                                         ("C2_prime", PyInt 6); ("C3_prime", PyInt 8)]);
            ("transformation", StageDict [("C4_prime", PyStr "36")]);
            ("denormalization", StageDict [("C4", PyInt 36)]);
            ("K", StageStr "1/12")]).
  vm_compute. reflexivity.
Defined.







(** ** The traces *)

(** X5: the trace of a successful [analogy_variant] has exactly the stages
    "normalization", "transformation", "denormalization" and "K", in this
    order, and no "inputs" stage; its "denormalization" stage holds the
    returned C4 and its "K" stage is the string "1". *)
Theorem analogy_variant_trace (C1 C2 C3 : pyval) (C4 : Z) (K : Fraction.t)
    (steps : steps_t) :
  analogy_variant C1 C2 C3 = Ok (C4, K, steps) ->
  dict_keys steps = ["normalization"; "transformation"; "denormalization"; "K"] /\
  dict_get "inputs" steps = None /\
  dict_get "denormalization" steps = Some (StageDict [("C4", PyInt C4)]) /\
  dict_get "K" steps = Some (StageStr "1").
Proof.
  intros H. unfold analogy_variant in H. split_call H.
  vm_compute in E4. inversion E4; subst. inversion H; subst.
  repeat split; reflexivity.
Qed.

Lemma analogy_variant_trace_witness :
  exists steps,
    analogy_variant (PyInt 21) (PyInt 3) (PyInt 5) = Ok (35, Fraction.mk 1 1, steps) /\
    dict_keys steps = ["normalization"; "transformation"; "denormalization"; "K"] /\
    dict_get "inputs" steps = None /\
    dict_get "denormalization" steps = Some (StageDict [("C4", PyInt 35)]) /\
    dict_get "K" steps = Some (StageStr "1").
Proof.
  eexists. split; [vm_compute; reflexivity|].
  apply (analogy_variant_trace (PyInt 21) (PyInt 3) (PyInt 5) 35 (Fraction.mk 1 1)).
  vm_compute. reflexivity.
Defined.

(** X6: the trace of a successful [compute_triad] agrees with the call: the
    "inputs" stage holds the five arguments as given, the "normalization"
    stage holds a positive gcd g and the three quotients, each of which
    times g gives back its concept, and the "denormalization" stage holds
    the returned C4. *)
Theorem compute_triad_trace_values (C1 C2 C3 a b : pyval) (C4 : Z) (K : Fraction.t)
    (steps : steps_t) :
  compute_triad C1 C2 C3 a b = Ok (C4, K, steps) ->
  exists g C1_prime C2_prime C3_prime : Z,
    dict_get "inputs" steps
    = Some (StageDict [("C1", C1); ("C2", C2); ("C3", C3); ("a", a); ("b", b)]) /\
    dict_get "normalization" steps
    = Some (StageDict [("gcd_in", PyInt g); ("C1_prime", PyInt C1_prime);
                       ("C2_prime", PyInt C2_prime); ("C3_prime", PyInt C3_prime)]) /\
    0 < g /\
    int_of C1 = g * C1_prime /\ int_of C2 = g * C2_prime /\ int_of C3 = g * C3_prime /\
    Z.gcd (Z.gcd C1_prime C2_prime) C3_prime = 1 /\
    dict_get "denormalization" steps = Some (StageDict [("C4", PyInt C4)]).
Proof.
  intros H. pose proof (compute_triad_ok_valid _ _ _ _ _ _ H) as Hv.
  destruct (forallb_positive_5 _ _ _ _ _ Hv) as (H1 & H2 & H3 & Ha & Hb).
  destruct (compute_triad_valid C1 C2 C3 a b Hv) as (Hg & _ & _ & E).
  rewrite E in H. clear E.
  match type of H with
  | (if ?c then _ else _) = _ => destruct c; [discriminate H|]
  end.
  inversion H; subst. clear H.
  destruct (gcd3_split (int_of C1) (int_of C2) (int_of C3) H1) as (_ & E1 & E2 & E3).
  set (g := Z.gcd (Z.gcd (int_of C1) (int_of C2)) (int_of C3)) in *.
  exists g, (int_of C1 / g), (int_of C2 / g), (int_of C3 / g).
  split; [reflexivity|]. split; [reflexivity|]. split; [exact Hg|].
  split; [exact E1|]. split; [exact E2|]. split; [exact E3|]. split; [|reflexivity].
  assert (Z.gcd (int_of C1 / g) (int_of C2 / g)
          = Z.gcd (int_of C1) (int_of C2) / g) as E12.
  { apply Z.gcd_div_factor; [lia| |].
    - exists (int_of C1 / g). lia.
    - exists (int_of C2 / g). lia. }
  rewrite E12. apply Z.gcd_div_gcd; [lia|reflexivity].
Qed.

Lemma compute_triad_trace_values_witness :
  exists g C1_prime C2_prime C3_prime : Z,
    0 < g /\
    18 = g * C1_prime /\ 6 = g * C2_prime /\ 8 = g * C3_prime /\
    Z.gcd (Z.gcd C1_prime C2_prime) C3_prime = 1.
Proof.
  destruct (compute_triad_trace_values _ _ _ _ _ _ _ _ scenario_A_value)
    as (g & x & y & z & _ & _ & Hg & E1 & E2 & E3 & Hco & _).
  exists g, x, y, z. repeat split; assumption.
Defined.

(** X7: the trace of a successful [check_static_balance] has exactly the
    stages "inputs", "normalization", "balancing" and "K", in this order;
    "inputs" holds the four arguments as given, "balancing" the returned
    a and b, and "K" the string of the returned K. *)
Theorem check_static_balance_trace (C1 C2 C3 C4 : pyval) (a b : Z) (K : Fraction.t)
    (steps : steps_t) :
  check_static_balance C1 C2 C3 C4 = Ok (a, b, K, steps) ->
  dict_keys steps = ["inputs"; "normalization"; "balancing"; "K"] /\
  dict_get "inputs" steps
  = Some (StageDict [("C1", C1); ("C2", C2); ("C3", C3); ("C4", C4)]) /\
  dict_get "balancing" steps = Some (StageDict [("a", PyInt a); ("b", PyInt b)]) /\
  dict_get "K" steps = Some (StageStr (Fraction.str K)).
Proof.
  intros H. unfold check_static_balance in H. split_call H.
  inversion H; subst. repeat split; reflexivity.
Qed.

Lemma check_static_balance_trace_witness :
  exists steps,
    check_static_balance (PyInt 1) (PyInt 1) (PyInt 2) (PyInt 1)
    = Ok (1, 2, Fraction.mk 1 2, steps) /\
    dict_keys steps = ["inputs"; "normalization"; "balancing"; "K"] /\
    dict_get "balancing" steps = Some (StageDict [("a", PyInt 1); ("b", PyInt 2)]) /\
    dict_get "K" steps = Some (StageStr "1/2").
Proof.
  eexists. split; [vm_compute; reflexivity|].
  destruct (check_static_balance_trace (PyInt 1) (PyInt 1) (PyInt 2) (PyInt 1) 1 2
              (Fraction.mk 1 2)
              [("inputs", StageDict [("C1", PyInt 1); ("C2", PyInt 1); ("C3", PyInt 2);
                                     ("C4", PyInt 1)]);
               ("normalization", StageDict [("gcd_in", PyInt 1); ("C1_prime", PyInt 1);
                                            ("C2_prime", PyInt 1); ("C3_prime", PyInt 2);
                                            ("C4_prime", PyInt 1)]);
               ("balancing", StageDict [("a", PyInt 1); ("b", PyInt 2)]);
               ("K", StageStr "1/2")]) as (Hk & _ & Hb & HK).
  - vm_compute. reflexivity.
  - split; [exact Hk|]. split; [exact Hb|exact HK].
Defined.

(** ** The solver and the forward transform *)

Lemma forallb_positive_PyInt_4 (c1 c2 c3 c4 : Z) :
  0 < c1 -> 0 < c2 -> 0 < c3 -> 0 < c4 ->
  forallb positive_int [PyInt c1; PyInt c2; PyInt c3; PyInt c4] = true.
Proof. intros. simpl. rewrite !andb_true_iff, !positive_int_PyInt. tauto. Qed.

Lemma forallb_positive_PyInt_5 (c1 c2 c3 a b : Z) :
  0 < c1 -> 0 < c2 -> 0 < c3 -> 0 < a -> 0 < b ->
  forallb positive_int [PyInt c1; PyInt c2; PyInt c3; PyInt a; PyInt b] = true.
Proof. intros. simpl. rewrite !andb_true_iff, !positive_int_PyInt. tauto. Qed.





(** X10: the returned coefficients are minimal.  Whenever
    [compute_triad(C1, C2, C3, x, y)] returns C4, the pair (x, y) is a
    positive multiple of the pair (a, b) that
    [check_static_balance(C1, C2, C3, C4)] returns, so no balancing pair has
    a larger K. *)
Theorem balance_minimal (c1 c2 c3 c4 a b x y : Z) (K K' : Fraction.t)
    (steps steps' : steps_t) :
  0 < c1 -> 0 < c2 -> 0 < c3 -> 0 < c4 ->
  check_static_balance (PyInt c1) (PyInt c2) (PyInt c3) (PyInt c4) = Ok (a, b, K, steps) ->
  compute_triad (PyInt c1) (PyInt c2) (PyInt c3) (PyInt x) (PyInt y) = Ok (c4, K', steps') ->
  (exists k : Z, 0 < k /\ x = k * a /\ y = k * b) /\
  Fraction.denominator K <= Fraction.denominator K'.
Proof.
  intros H1 H2 H3 H4 HB HT.
  destruct (check_static_balance_general _ _ _ _ (forallb_positive_PyInt_4 _ _ _ _ H1 H2 H3 H4))
    as (a0 & b0 & s & E & Pa & Pb & Hco & Hbal).
  rewrite E in HB. inversion HB; subst a0 b0 K s. clear HB E. simpl int_of in Hbal.
  destruct (compute_triad_ok_inv _ _ _ _ _ _ _ _ HT) as (Hv & _ & Hrel & HK).
  destruct (forallb_positive_5 _ _ _ _ _ Hv) as (_ & _ & _ & Px & Py).
  simpl int_of in Hrel, HK, Px, Py.
  assert (x * b = a * y) as Hxy.
  { apply (Z.mul_cancel_r _ _ (c1 * c4)); [nia|].
    transitivity (x * (b * (c1 * c4))); [ring|]. rewrite <- Hbal.
    transitivity (a * (x * c2 * c3)); [ring|]. rewrite <- Hrel. ring. }
  assert ((a | x)) as [k Hk].
  { apply (Z.gauss a b x); [|exact Hco]. exists y. lia. }
  assert (y = k * b) as Hy.
  { apply (Z.mul_cancel_l _ _ a); [lia|]. rewrite <- Hxy, Hk. ring. }
  assert (0 < k) as Pk by nia.
  split; [exists k; repeat split; assumption|].
  subst K' x y. simpl. nia.
Qed.

Lemma balance_minimal_witness :
  (exists k : Z, 0 < k /\ 9 = k * 3 /\ 12 = k * 4) /\ 12 <= 108.
Proof.
  apply (balance_minimal 18 6 8 2 3 4 9 12 (Fraction.mk 1 12) (Fraction.mk 1 108)
           [("inputs", StageDict [("C1", PyInt 18); ("C2", PyInt 6); ("C3", PyInt 8);
                                  ("C4", PyInt 2)]);
            ("normalization", StageDict [("gcd_in", PyInt 2); ("C1_prime", PyInt 9);
                                         ("C2_prime", PyInt 3); ("C3_prime", PyInt 4);
                                         ("C4_prime", PyInt 1)]);
            ("balancing", StageDict [("a", PyInt 3); ("b", PyInt 4)]);
            ("K", StageStr "1/12")]
           [("inputs", StageDict [("C1", PyInt 18); ("C2", PyInt 6); ("C3", PyInt 8);
                                  ("a", PyInt 9); ("b", PyInt 12)]);
            ("normalization", StageDict [("gcd_in", PyInt 2); ("C1_prime", PyInt 9);
                                         ("C2_prime", PyInt 3); ("C3_prime", PyInt 4)]);
            ("transformation", StageDict [("C4_prime", PyStr "1")]);
            ("denormalization", StageDict [("C4", PyInt 2)]);
            ("K", StageStr "1/108")]); try lia.
  - vm_compute. reflexivity.
  - vm_compute. reflexivity.
Defined.

(** ** Algebra of the forward transform *)

(** X11: [compute_triad] is symmetric in C2 and C3: exchanging them changes
    neither the integer returned nor the error raised, for any arguments. *)
Theorem compute_triad_symmetric (C1 C2 C3 a b : pyval) :
  outcome (compute_triad C1 C3 C2 a b) = outcome (compute_triad C1 C2 C3 a b).
Proof.
  destruct (forallb positive_int [C1; C2; C3; a; b]) eqn:Hv.
  - assert (forallb positive_int [C1; C3; C2; a; b] = true) as Hv'.
    { simpl in *. rewrite !andb_true_iff in *. tauto. }
    pose proof (compute_triad_general _ _ _ _ _ Hv) as HT.
    pose proof (compute_triad_general _ _ _ _ _ Hv') as HT'.
    cbv zeta in HT, HT'.
    replace (int_of a * int_of C3 * int_of C2)
      with (int_of a * int_of C2 * int_of C3) in HT' by ring.
    destruct HT as [[D [s E]]|[D E]], HT' as [[D' [s' E']]|[D' E']];
      try contradiction; rewrite E, E'; reflexivity.
  - assert (forallb positive_int [C1; C3; C2; a; b] = false) as Hv'.
    { simpl in *. rewrite !andb_false_iff in *. tauto. }
    unfold compute_triad. rewrite Hv, Hv'. reflexivity.
Qed.

(** X12: [compute_triad] is homogeneous in the concepts: when it returns C4
    on C1, C2, C3 with coefficients a and b, it returns k·C4, with the same
    K, on k·C1, k·C2, k·C3 for every positive integer k. *)
Theorem compute_triad_scales (c1 c2 c3 a b k C4 : Z) (K : Fraction.t) (steps : steps_t) :
  0 < k ->
  compute_triad (PyInt c1) (PyInt c2) (PyInt c3) (PyInt a) (PyInt b) = Ok (C4, K, steps) ->
  exists steps',
    compute_triad (PyInt (k * c1)) (PyInt (k * c2)) (PyInt (k * c3)) (PyInt a) (PyInt b)
    = Ok (k * C4, K, steps').
Proof.
  intros Hk H.
  destruct (compute_triad_ok_inv _ _ _ _ _ _ _ _ H) as (Hv & _ & Hrel & HK).
  destruct (forallb_positive_5 _ _ _ _ _ Hv) as (H1 & H2 & H3 & Ha & Hb).
  simpl int_of in *.
  assert (forallb positive_int
            [PyInt (k * c1); PyInt (k * c2); PyInt (k * c3); PyInt a; PyInt b] = true)
    as Hv' by (apply forallb_positive_PyInt_5; nia).
  pose proof (compute_triad_general _ _ _ _ _ Hv') as HT.
  cbv zeta in HT. simpl int_of in HT.
  assert (a * (k * c2) * (k * c3) = k * C4 * (b * (k * c1))) as E.
  { transitivity (k * k * (a * c2 * c3)); [ring|]. rewrite <- Hrel. ring. }
  assert (b * (k * c1) <> 0) as Hnz by nia.
  destruct HT as [[_ [s' E']]|[N _]].
  - rewrite E, Z.div_mul in E' by exact Hnz. subst K. exists s'. exact E'.
  - exfalso. apply N. exists (k * C4). exact E.
Qed.

Lemma compute_triad_scales_witness :
  exists steps',
    compute_triad (PyInt (5 * 18)) (PyInt (5 * 6)) (PyInt (5 * 8)) (PyInt 3) (PyInt 4)
    = Ok (5 * 2, Fraction.mk 1 12, steps').
Proof.
  eapply (compute_triad_scales 18 6 8 3 4 5 2 (Fraction.mk 1 12)); [lia|].
  exact scenario_A_value.
Defined.

(** ** More on chaining *)

Lemma chain_spec_app (l1 : list triad) :
  forall (C1 : pyval) (l2 : list triad),
    chain_spec C1 (l1 ++ l2) =
    match chain_spec C1 l1 with
    | Raise e => Raise e
    | Ok (C1', Ks1, Ss1) =>
        match chain_spec C1' l2 with
        | Raise e => Raise e
        | Ok (final_C4, Ks2, Ss2) => Ok (final_C4, Ks1 ++ Ks2, Ss1 ++ Ss2)
        end
    end.
Proof.
  induction l1 as [|[[[C2 C3] a] b] l1 IH]; intros C1 l2.
  - simpl. destruct (chain_spec C1 l2) as [[[f Ks] Ss]|e]; reflexivity.
  - simpl. destruct (compute_triad C1 C2 C3 a b) as [[[C4 K] steps]|e]; [|reflexivity].
    rewrite IH.
    destruct (chain_spec (PyInt C4) l1) as [[[C1' Ks1] Ss1]|e]; [|reflexivity].
    destruct (chain_spec C1' l2) as [[[f Ks2] Ss2]|e]; reflexivity.
Qed.

(** X13: chains compose.  Running [chain_triads] on two lists joined is
    running it on the first list and then, from the value it returns, on the
    second: the K lists and the trace lists are joined in order, and an error
    of either part is the error of the whole. *)
Theorem chain_triads_app (initial_C1 : pyval) (l1 l2 : list triad) :
  chain_triads initial_C1 (l1 ++ l2) =
  match chain_triads initial_C1 l1 with
  | Raise e => Raise e
  | Ok (C1', Ks1, Ss1) =>
      match chain_triads C1' l2 with
      | Raise e => Raise e
      | Ok (final_C4, Ks2, Ss2) => Ok (final_C4, Ks1 ++ Ks2, Ss1 ++ Ss2)
      end
  end.
Proof.
  rewrite !chain_triads_chain_spec, chain_spec_app.
  destruct (chain_spec initial_C1 l1) as [[[C1' Ks1] Ss1]|e]; [|reflexivity].
  rewrite chain_triads_chain_spec. reflexivity.
Qed.

Lemma chain_spec_ok (triad_list : list triad) :
  forall (C1 final_C4 : pyval) (all_K : list Fraction.t) (all_steps : list steps_t),
    chain_spec C1 triad_list = Ok (final_C4, all_K, all_steps) ->
    Forall2 (fun (t : triad) (K : Fraction.t) =>
               let '(_, _, a, b) := t in K = Fraction.mk 1 (int_of a * int_of b))
            triad_list all_K /\
    length all_steps = length triad_list /\
    (triad_list <> [] ->
     positive_int C1 = true /\ exists z : Z, final_C4 = PyInt z /\ 0 < z).
Proof.
  induction triad_list as [|[[[C2 C3] a] b] rest IH]; intros C1 f Ks Ss H.
  - simpl in H. inversion H; subst. split; [constructor|]. split; [reflexivity|].
    intros N. contradiction.
  - simpl in H.
    destruct (compute_triad C1 C2 C3 a b) as [[[C4 K] steps]|e] eqn:E; [|discriminate H].
    destruct (chain_spec (PyInt C4) rest) as [[[f0 Ks0] Ss0]|e] eqn:Er; [|discriminate H].
    inversion H; subst. clear H.
    destruct (compute_triad_ok_inv _ _ _ _ _ _ _ _ E) as (Hv & Hpos & _ & HK).
    destruct (IH _ _ _ _ Er) as (HKs & Hlen & Hfin).
    split; [constructor; assumption|]. split; [simpl; rewrite Hlen; reflexivity|].
    intros _. split.
    + simpl in Hv. rewrite andb_true_iff in Hv. tauto.
    + destruct rest as [|t rest'].
      * simpl in Er. inversion Er; subst. exists C4. split; [reflexivity|exact Hpos].
      * destruct Hfin as [_ Hz]; [discriminate|exact Hz].
Qed.

(** X14: what a successful chain returns.  The K list has one entry per
    triad, the i-th being 1/(a·b) of the i-th triad; the trace list has one
    trace per triad; and when the list is not empty the initial C1 was a
    positive integer and the final C4 is a positive integer. *)
Theorem chain_triads_result (initial_C1 final_C4 : pyval) (triad_list : list triad)
    (all_K : list Fraction.t) (all_steps : list steps_t) :
  chain_triads initial_C1 triad_list = Ok (final_C4, all_K, all_steps) ->
  Forall2 (fun (t : triad) (K : Fraction.t) =>
             let '(_, _, a, b) := t in K = Fraction.mk 1 (int_of a * int_of b))
          triad_list all_K /\
  length all_steps = length triad_list /\
  (triad_list <> [] ->
   positive_int initial_C1 = true /\ exists z : Z, final_C4 = PyInt z /\ 0 < z).
Proof.
  rewrite chain_triads_chain_spec. apply chain_spec_ok.
Qed.

Lemma chain_triads_result_witness :
  exists (all_K : list Fraction.t) (all_steps : list steps_t),
    chain_triads (PyInt 18)
      [(PyInt 6, PyInt 8, PyInt 3, PyInt 4); (PyInt 5, PyInt 10, PyInt 1, PyInt 1)]
    = Ok (PyInt 25, all_K, all_steps) /\
    all_K = [Fraction.mk 1 12; Fraction.mk 1 1] /\
    length all_steps = 2%nat.
Proof.
  eexists. eexists. split; [vm_compute; reflexivity|].
  split; [reflexivity|].
  eapply (chain_triads_result (PyInt 18) (PyInt 25)
           [(PyInt 6, PyInt 8, PyInt 3, PyInt 4); (PyInt 5, PyInt 10, PyInt 1, PyInt 1)]).
  vm_compute. reflexivity.
Defined.




(** ** More on the network *)

Lemma union_singleton_twice (i : string) (x y : Fraction.t) (m : gmap string Fraction.t) :
  {[i := x]} ∪ ({[i := y]} ∪ m) = {[i := x]} ∪ m.
Proof. rewrite <- !insert_union_singleton_l. apply insert_insert_eq. Qed.

Lemma union_singleton_over (i : string) (x : Fraction.t)
    (o : option (gmap string Fraction.t)) :
  (forall m, o = Some m -> exists y, m = {[i := y]}) ->
  {[i := x]} ∪ default ∅ o = ({[i := x]} : gmap string Fraction.t).
Proof.
  intros H. destruct o as [m|]; simpl.
  - destruct (H m eq_refl) as [y ->].
    rewrite <- insert_union_singleton_l. apply insert_singleton_eq.
  - apply map_eq. intros j. rewrite lookup_union_l; [reflexivity|apply lookup_empty].
Qed.

Lemma add_triad_ok_inv (net net' : TriadicNetwork) (triad_id : string)
    (C1 C2 C3 a b : pyval) :
  add_triad net triad_id C1 C2 C3 a b = Ok net' ->
  exists (C4 : Z) (steps : steps_t),
    compute_triad C1 C2 C3 a b = Ok (C4, Fraction.mk 1 (int_of a * int_of b), steps) /\
    0 < int_of a * int_of b /\
    net' = {| graph := DiGraph.add_node triad_id
                         {["K" := Fraction.mk 1 (int_of a * int_of b)]} (graph net) |}.
Proof.
  intros H. unfold add_triad, mbind, result_bind in H.
  destruct (compute_triad C1 C2 C3 a b) as [[[C4 K] steps]|e] eqn:E; [|discriminate H].
  destruct (compute_triad_ok_inv _ _ _ _ _ _ _ _ E) as (Hv & _ & _ & HK).
  destruct (forallb_positive_5 _ _ _ _ _ Hv) as (_ & _ & _ & Ha & Hb).
  subst K. inversion H; subst. exists C4, steps.
  split; [reflexivity|]. split; [nia|reflexivity].
Qed.

Lemma add_connection_ok_inv (net net' : TriadicNetwork) (from_id to_id : string) :
  add_connection net from_id to_id = Ok net' ->
  (DiGraph.has_node (graph net) from_id && DiGraph.has_node (graph net) to_id = false /\
   net' = net) \/
  (DiGraph.has_node (graph net) from_id = true /\
   DiGraph.has_node (graph net) to_id = true /\
   exists (attr : gmap string Fraction.t) (w : Fraction.t),
     DiGraph.nodes (graph net) !! from_id = Some attr /\ attr !! "K" = Some w /\
     net' = {| graph := DiGraph.add_edge from_id to_id {["weight" := w]} (graph net) |}).
Proof.
  intros H. unfold add_connection in H.
  destruct (DiGraph.has_node (graph net) from_id) eqn:Hf;
    [destruct (DiGraph.has_node (graph net) to_id) eqn:Ht|]; simpl in H.
  - right. split; [reflexivity|]. split; [reflexivity|].
    unfold mbind, result_bind, DiGraph.node_attr in H.
    destruct (DiGraph.nodes (graph net) !! from_id) as [attr|] eqn:Ea; [|discriminate H].
    destruct (attr !! "K") as [w|] eqn:Ew; [|discriminate H].
    inversion H; subst. exists attr, w. repeat split; assumption.
  - left. inversion H; subst. split; reflexivity.
  - left. inversion H; subst. split; reflexivity.
Qed.

Lemma reachable_well_formed (net : TriadicNetwork) :
  reachable net -> well_formed net.
Proof.
  induction 1 as [|net net' triad_id C1 C2 C3 a b Hr [IHn IHe] Hadd
                  |net net' from_id to_id Hr [IHn IHe] Hadd].
  - split.
    + intros n attr Hn. simpl in Hn. rewrite lookup_empty in Hn. discriminate Hn.
    + intros u v eattr He. simpl in He. rewrite lookup_empty in He. discriminate He.
  - destruct (add_triad_ok_inv _ _ _ _ _ _ _ _ Hadd) as (C4 & steps & _ & Hpos & ->).
    split.
    + intros n attr Hn. cbn [graph DiGraph.add_node DiGraph.nodes] in Hn.
      destruct (decide (triad_id = n)) as [->|Hne].
      * rewrite lookup_insert_eq in Hn. inversion Hn; subst attr. clear Hn.
        exists (Fraction.mk 1 (int_of a * int_of b)). split.
        -- apply union_singleton_over. intros m Hm.
           destruct (IHn n m Hm) as [k [-> _]]. exists k. reflexivity.
        -- split; [reflexivity|exact Hpos].
      * rewrite lookup_insert_ne in Hn by exact Hne. exact (IHn n attr Hn).
    + intros u v eattr He. cbn [graph DiGraph.add_node DiGraph.nodes DiGraph.edges] in *.
      destruct (IHe u v eattr He) as (Hu & Hv & Hw).
      split; [|split; [|exact Hw]]; apply lookup_insert_is_Some.
      * destruct (decide (triad_id = u)); [left; assumption|right; split; assumption].
      * destruct (decide (triad_id = v)); [left; assumption|right; split; assumption].
  - destruct (add_connection_ok_inv _ _ _ _ Hadd)
      as [[_ ->]|(Hf & Ht & attr & w & Ha & Hw & ->)]; [split; assumption|].
    destruct (IHn from_id attr Ha) as [k [-> Hk]].
    rewrite lookup_singleton_eq in Hw. inversion Hw; subst k. clear Hw.
    split.
    + intros n attr Hn. cbn [graph] in Hn.
      rewrite add_edge_nodes in Hn by assumption. exact (IHn n attr Hn).
    + intros u v eattr He. cbn [graph] in *.
      rewrite add_edge_nodes by assumption.
      rewrite add_edge_edges in He by assumption.
      destruct (decide ((from_id, to_id) = (u, v))) as [Heq|Hne].
      * inversion Heq; subst u v. rewrite lookup_insert_eq in He.
        inversion He; subst eattr. clear He.
        split; [apply has_node_true, Hf|]. split; [apply has_node_true, Ht|].
        exists w. split; [|exact Hk].
        apply union_singleton_over. intros m Hm.
        destruct (IHe _ _ m Hm) as (_ & _ & w' & -> & _). exists w'. reflexivity.
      * rewrite lookup_insert_ne in He by exact Hne. exact (IHe u v eattr He).
Qed.

(** X16: [add_triad] stores K = 1/(a·b) on the node [triad_id] and touches
    nothing else: the other nodes and all edges are as before; and it
    raises exactly the error [compute_triad] raises on its arguments. *)
Theorem add_triad_spec (net : TriadicNetwork) (triad_id : string)
    (C1 C2 C3 a b : pyval) :
  (forall net' : TriadicNetwork,
      add_triad net triad_id C1 C2 C3 a b = Ok net' ->
      (exists attr : gmap string Fraction.t,
          DiGraph.nodes (graph net') !! triad_id = Some attr /\
          attr !! "K" = Some (Fraction.mk 1 (int_of a * int_of b))) /\
      (forall n : string,
          n <> triad_id ->
          DiGraph.nodes (graph net') !! n = DiGraph.nodes (graph net) !! n) /\
      DiGraph.edges (graph net') = DiGraph.edges (graph net)) /\
  (forall e : exn,
      add_triad net triad_id C1 C2 C3 a b = Raise e <->
      compute_triad C1 C2 C3 a b = Raise e).
Proof.
  split.
  - intros net' H.
    destruct (add_triad_ok_inv _ _ _ _ _ _ _ _ H) as (C4 & steps & _ & _ & ->).
    cbn [graph DiGraph.add_node DiGraph.nodes DiGraph.edges].
    split; [|split; [|reflexivity]].
    + eexists. split; [apply lookup_insert_eq|].
      apply lookup_union_Some_l, lookup_singleton_eq.
    + intros n Hne. apply lookup_insert_ne. congruence.
  - intros e. unfold add_triad, mbind, result_bind.
    destruct (compute_triad C1 C2 C3 a b) as [[[C4 K] steps]|e0].
    + split; discriminate.
    + split; intros H; inversion H; reflexivity.
Qed.

Lemma add_triad_spec_witness :
  (exists attr : gmap string Fraction.t,
      DiGraph.nodes (graph example_net) !! "Delta2" = Some attr /\
      attr !! "K" = Some (Fraction.mk 1 (1 * 1))) /\
  add_triad example_net "Delta3" (PyInt 44) (PyInt 1) (PyInt 1) (PyInt 7) (PyInt 44)
  = Raise NonIntegerResult.
Proof.
  split.
  - destruct (add_triad_spec
                {| graph := DiGraph.add_node "Delta1" {["K" := Fraction.mk 1 12]}
                              DiGraph.empty |}
                "Delta2" (PyInt 2) (PyInt 5) (PyInt 10) (PyInt 1) (PyInt 1)) as [Hok _].
    destruct (Hok example_net) as [Hnode _]; [reflexivity|exact Hnode].
  - apply (add_triad_spec example_net "Delta3" (PyInt 44) (PyInt 1) (PyInt 1)
             (PyInt 7) (PyInt 44)).
    vm_compute. reflexivity.
Defined.

(** X17: re-adding a triad id overwrites.  After a successful [add_triad]
    under some id, a second [add_triad] under the same id gives the network
    that the second call alone would have given: the last write wins and
    no trace of the first K is left. *)
Theorem add_triad_overwrites (net net1 : TriadicNetwork) (triad_id : string)
    (C1 C2 C3 a b D1 D2 D3 c d : pyval) :
  add_triad net triad_id C1 C2 C3 a b = Ok net1 ->
  add_triad net1 triad_id D1 D2 D3 c d = add_triad net triad_id D1 D2 D3 c d.
Proof.
  intros H. destruct (add_triad_ok_inv _ _ _ _ _ _ _ _ H) as (C4 & steps & _ & _ & ->).
  unfold add_triad, mbind, result_bind.
  destruct (compute_triad D1 D2 D3 c d) as [[[D4 K] s]|e]; [|reflexivity].
  do 2 f_equal. unfold DiGraph.add_node.
  cbn [graph DiGraph.nodes DiGraph.edges]. f_equal.
  rewrite lookup_insert_eq, insert_insert_eq. simpl default.
  rewrite union_singleton_twice. reflexivity.
Qed.

Lemma add_triad_overwrites_witness :
  add_triad example_net "Delta2" (PyInt 18) (PyInt 6) (PyInt 8) (PyInt 3) (PyInt 4)
  = add_triad
      {| graph := DiGraph.add_node "Delta1" {["K" := Fraction.mk 1 12]} DiGraph.empty |}
      "Delta2" (PyInt 18) (PyInt 6) (PyInt 8) (PyInt 3) (PyInt 4).
Proof.
  apply (add_triad_overwrites _ example_net "Delta2"
           (PyInt 2) (PyInt 5) (PyInt 10) (PyInt 1) (PyInt 1)).
  reflexivity.
Defined.

(** X18: [add_connection] is idempotent: repeating a successful call gives
    the same network again, so a pair of nodes never gets a second edge. *)
Theorem add_connection_idempotent (net net1 : TriadicNetwork) (from_id to_id : string) :
  add_connection net from_id to_id = Ok net1 ->
  add_connection net1 from_id to_id = Ok net1.
Proof.
  intros H.
  destruct (add_connection_ok_inv _ _ _ _ H)
    as [[_ ->]|(Hf & Ht & attr & w & Ha & Hw & ->)]; [exact H|].
  unfold add_connection. cbn [graph].
  assert (DiGraph.has_node (DiGraph.add_edge from_id to_id {["weight" := w]} (graph net))
            from_id = true) as Hf'.
  { apply has_node_true. rewrite add_edge_nodes by assumption. apply has_node_true, Hf. }
  assert (DiGraph.has_node (DiGraph.add_edge from_id to_id {["weight" := w]} (graph net))
            to_id = true) as Ht'.
  { apply has_node_true. rewrite add_edge_nodes by assumption. apply has_node_true, Ht. }
  rewrite Hf', Ht'. simpl andb. cbv iota.
  unfold DiGraph.node_attr. rewrite add_edge_nodes by assumption. rewrite Ha, Hw.
  unfold mbind, result_bind. do 2 f_equal.
  unfold DiGraph.add_edge at 1. rewrite Hf', Ht'.
  rewrite add_edge_nodes, add_edge_edges by assumption.
  unfold DiGraph.add_edge. rewrite Hf, Ht. f_equal.
  rewrite lookup_insert_eq, insert_insert_eq. simpl default.
  rewrite union_singleton_twice. reflexivity.
Qed.

Lemma add_connection_idempotent_witness :
  add_connection
    {| graph := DiGraph.add_edge "Delta1" "Delta2" {["weight" := Fraction.mk 1 12]}
                  (graph example_net) |}
    "Delta1" "Delta2"
  = Ok {| graph := DiGraph.add_edge "Delta1" "Delta2" {["weight" := Fraction.mk 1 12]}
                     (graph example_net) |}.
Proof.
  apply (add_connection_idempotent example_net). vm_compute. reflexivity.
Defined.

(** X19: the shape the methods keep.  In every network built from the empty
    one by [add_triad] and [add_connection], each node holds exactly one
    attribute, "K", a fraction 1/d with d positive; each edge joins two
    existing nodes and holds exactly one attribute, "weight", of that same
    form. *)
Theorem reachable_invariant (net : TriadicNetwork) :
  reachable net -> well_formed net.
Proof. exact (reachable_well_formed net). Qed.

Lemma reachable_invariant_witness : well_formed example_net.
Proof. apply (reachable_invariant example_net). exact example_net_reachable. Defined.

(** X20: an edge weight is a snapshot.  After [add_connection] from
    [from_id] to [to_id], re-adding the triad [from_id] with new
    coefficients changes the K of the node but leaves the weight of the edge
    at the old K; calling [add_connection] again then sets the weight of
    that edge to the new K. *)
Theorem edge_weight_snapshot (net net1 net2 : TriadicNetwork) (from_id to_id : string)
    (C1 C2 C3 a b : pyval) :
  reachable net ->
  DiGraph.has_node (graph net) from_id = true ->
  DiGraph.has_node (graph net) to_id = true ->
  add_connection net from_id to_id = Ok net1 ->
  add_triad net1 from_id C1 C2 C3 a b = Ok net2 ->
  exists k : Fraction.t,
    DiGraph.nodes (graph net) !! from_id = Some {["K" := k]} /\
    DiGraph.edges (graph net2) !! (from_id, to_id) = Some {["weight" := k]} /\
    DiGraph.nodes (graph net2) !! from_id
    = Some {["K" := Fraction.mk 1 (int_of a * int_of b)]} /\
    exists net3 : TriadicNetwork,
      add_connection net2 from_id to_id = Ok net3 /\
      DiGraph.edges (graph net3) !! (from_id, to_id)
      = Some {["weight" := Fraction.mk 1 (int_of a * int_of b)]}.
Proof.
  intros Hr Hf Ht Hc Ha.
  pose proof (reachable_add_connection _ _ _ _ Hr Hc) as Hr1.
  pose proof (reachable_add_triad _ _ _ _ _ _ _ _ Hr1 Ha) as Hr2.
  destruct (reachable_well_formed _ Hr) as [Wn _].
  destruct (reachable_well_formed _ Hr1) as [_ We1].
  destruct (reachable_well_formed _ Hr2) as [Wn2 _].
  destruct (add_connection_ok_inv _ _ _ _ Hc)
    as [[Hno _]|(_ & _ & attr & w & Hattr & Hw & ->)];
    [rewrite Hf, Ht in Hno; discriminate Hno|].
  destruct (Wn _ _ Hattr) as [k [-> _]].
  rewrite lookup_singleton_eq in Hw. inversion Hw; subst w. clear Hw.
  destruct (add_triad_ok_inv _ _ _ _ _ _ _ _ Ha) as (C4 & steps & _ & _ & ->).
  set (K' := Fraction.mk 1 (int_of a * int_of b)) in *.
  set (g1 := DiGraph.add_edge from_id to_id {["weight" := k]} (graph net)) in *.
  assert (DiGraph.edges g1 !! (from_id, to_id) = Some {["weight" := k]}) as Hedge.
  { unfold g1. rewrite add_edge_edges by assumption. rewrite lookup_insert_eq. f_equal.
    destruct (We1 from_id to_id ({["weight" := k]}
                ∪ default ∅ (DiGraph.edges (graph net) !! (from_id, to_id))))
      as (_ & _ & w' & Ew & _).
    - cbn [graph]. unfold g1. rewrite add_edge_edges by assumption.
      apply lookup_insert_eq.
    - rewrite Ew. f_equal.
      assert (({["weight" := k]}
                 ∪ default ∅ (DiGraph.edges (graph net) !! (from_id, to_id)))
                !! "weight" = Some k) as L
        by apply lookup_union_Some_l, lookup_singleton_eq.
      rewrite Ew, lookup_singleton_eq in L. congruence. }
  assert (DiGraph.nodes g1 = DiGraph.nodes (graph net)) as Hnodes
    by (apply add_edge_nodes; assumption).
  assert (DiGraph.nodes (DiGraph.add_node from_id {["K" := K']} g1) !! from_id
          = Some {["K" := K']}) as Hnode.
  { destruct (Wn2 from_id ({["K" := K']} ∪ default ∅ (DiGraph.nodes g1 !! from_id)))
      as (k2 & Ek & _).
    - cbn [graph DiGraph.add_node DiGraph.nodes]. apply lookup_insert_eq.
    - cbn [DiGraph.add_node DiGraph.nodes]. rewrite lookup_insert_eq, Ek. do 2 f_equal.
      assert (({["K" := K']} ∪ default ∅ (DiGraph.nodes g1 !! from_id)) !! "K" = Some K')
        as L by apply lookup_union_Some_l, lookup_singleton_eq.
      rewrite Ek, lookup_singleton_eq in L. congruence. }
  exists k. split; [exact Hattr|]. split; [exact Hedge|]. split; [exact Hnode|].
  cbn [graph]. set (g2 := DiGraph.add_node from_id {["K" := K']} g1) in *.
  assert (DiGraph.has_node g2 from_id = true) as Hf2.
  { apply has_node_true. rewrite Hnode. eexists. reflexivity. }
  assert (DiGraph.has_node g2 to_id = true) as Ht2.
  { apply has_node_true. unfold g2. cbn [DiGraph.add_node DiGraph.nodes].
    apply lookup_insert_is_Some.
    destruct (decide (from_id = to_id)) as [E|N]; [left; exact E|right].
    split; [exact N|]. rewrite Hnodes. apply has_node_true, Ht. }
  eexists. unfold add_connection. cbn [graph]. rewrite Hf2, Ht2. simpl andb. cbv iota.
  unfold DiGraph.node_attr. rewrite Hnode, lookup_singleton_eq.
  unfold mbind, result_bind. split; [reflexivity|]. cbn [graph].
  rewrite add_edge_edges by assumption. rewrite lookup_insert_eq. f_equal.
  assert (DiGraph.edges g2 = DiGraph.edges g1) as -> by reflexivity.
  rewrite Hedge. simpl default.
  rewrite <- insert_union_singleton_l. apply insert_singleton_eq.
Qed.

Lemma edge_weight_snapshot_witness :
  exists (k : Fraction.t) (net2 net3 : TriadicNetwork),
    DiGraph.nodes (graph example_net) !! "Delta1" = Some {["K" := k]} /\
    DiGraph.edges (graph net2) !! ("Delta1", "Delta2") = Some {["weight" := k]} /\
    DiGraph.nodes (graph net2) !! "Delta1" = Some {["K" := Fraction.mk 1 (1 * 2)]} /\
    add_connection net2 "Delta1" "Delta2" = Ok net3 /\
    DiGraph.edges (graph net3) !! ("Delta1", "Delta2")
    = Some {["weight" := Fraction.mk 1 (1 * 2)]}.
Proof.
  destruct (edge_weight_snapshot example_net
              {| graph := DiGraph.add_edge "Delta1" "Delta2"
                            {["weight" := Fraction.mk 1 12]} (graph example_net) |}
              {| graph := DiGraph.add_node "Delta1" {["K" := Fraction.mk 1 2]}
                            (DiGraph.add_edge "Delta1" "Delta2"
                               {["weight" := Fraction.mk 1 12]} (graph example_net)) |}
              "Delta1" "Delta2" (PyInt 1) (PyInt 1) (PyInt 2) (PyInt 1) (PyInt 2)
              example_net_reachable)
    as (k & Hk & He & Hn & net3 & Hc & He3);
    [vm_compute; reflexivity..|].
  exists k. eexists. exists net3.
  split; [exact Hk|]. split; [exact He|]. split; [exact Hn|]. split; [exact Hc|exact He3].
Defined.

(** ** Coefficients that are not in lowest terms *)



(** X22: the joint gcd normalization of [check_static_balance] does not
    show in its result: on positive integers the coefficients returned are
    C1·C4 and C2·C3 divided by their gcd. *)
Theorem check_static_balance_direct (c1 c2 c3 c4 a b : Z) (K : Fraction.t)
    (steps : steps_t) :
  0 < c1 -> 0 < c2 -> 0 < c3 -> 0 < c4 ->
  check_static_balance (PyInt c1) (PyInt c2) (PyInt c3) (PyInt c4) = Ok (a, b, K, steps) ->
  a = c1 * c4 / Z.gcd (c1 * c4) (c2 * c3) /\
  b = c2 * c3 / Z.gcd (c1 * c4) (c2 * c3) /\
  K = Fraction.mk 1 (a * b).
Proof.
  intros H1 H2 H3 H4 H.
  destruct (check_static_balance_general _ _ _ _ (forallb_positive_PyInt_4 _ _ _ _ H1 H2 H3 H4))
    as (a0 & b0 & s & E & Pa & Pb & Hco & Hbal).
  rewrite E in H. inversion H; subst a0 b0 K s. clear H E. simpl int_of in Hbal.
  assert (0 < c2 * c3) as Hd by nia.
  destruct (reduced_unique a b (c1 * c4) (c2 * c3) Pb Hd) as [En Ed]; [lia|].
  rewrite Hco, !Z.div_1_r in En, Ed.
  split; [exact En|]. split; [exact Ed|reflexivity].
Qed.

Lemma check_static_balance_direct_witness :
  3 = 18 * 2 / Z.gcd (18 * 2) (6 * 8) /\
  4 = 6 * 8 / Z.gcd (18 * 2) (6 * 8) /\
  Fraction.mk 1 12 = Fraction.mk 1 (3 * 4).
Proof.
  apply (check_static_balance_direct 18 6 8 2 3 4 (Fraction.mk 1 12)
           [("inputs", StageDict [("C1", PyInt 18); ("C2", PyInt 6); ("C3", PyInt 8);
                                  ("C4", PyInt 2)]);
            ("normalization", StageDict [("gcd_in", PyInt 2); ("C1_prime", PyInt 9);
                                         ("C2_prime", PyInt 3); ("C3_prime", PyInt 4);
                                         ("C4_prime", PyInt 1)]);
            ("balancing", StageDict [("a", PyInt 3); ("b", PyInt 4)]);
            ("K", StageStr "1/12")]); try lia.
  vm_compute. reflexivity.
Defined.
